(** * PoseShift cloud function: retry wrapper, Gemini pipeline and Datadog reports

    A shallow embedding of [functions/src/geminiService.ts] and
    [functions/src/datadogApi.ts] (with the span helper of [datadog.ts]),
    followed by the properties of the retry loop, of the two remote
    operations, of the direct-report path and of the pipeline
    [generateWithPose].

    Conventions of the embedding.
    - JavaScript numbers that the program uses as counters, delays, status
      codes and millisecond clocks are integers ([Z]).
    - An [async] function is a state-passing function over a [World] that
      returns a [Result]: [Return v] for a fulfilled promise, [Throw e] for a
      rejected one.  Every [await] of the source is sequential, except the
      [Promise.all] of the report path, which has its own model below.
    - Everything the program does to its surroundings is appended to the
      [trace] of the world; what the surroundings answer (the clock, the
      Datadog intake, the Gemini backend) is read from oracles that the
      program cannot change. *)

From Stdlib Require Import ZArith List String Ascii Bool Lia Permutation.
From Stdlib Require Import DecimalString.
From Equations Require Import Equations.
Import ListNotations.

Set Warnings "-register-all".
Open Scope string_scope.
Open Scope list_scope.
Open Scope Z_scope.

(** String concatenation, as in template literals. *)
Infix "+++" := String.append (right associativity, at level 60).

(** ** JavaScript values *)

(** A value that can be thrown and caught ([unknown] in the source): the
    [undefined] value, an instance of [Error] or of one of its subclasses
    with its [name] and [message], or any other value. *)
Inductive jsval : Type :=
| JsUndefined
| JsError (name message : string)
| JsOther (repr : string).

(** [new Error(msg)] and the [TypeError] raised by the runtime on a
    property read of [undefined] or [null]. *)
Definition new_Error (msg : string) : jsval := JsError "Error" msg.
Definition TypeError (msg : string) : jsval := JsError "TypeError" msg.

(** Values produced by [JSON.parse].  A number is kept as the text that
    JavaScript prints for it; the program never computes with one. *)
Inductive json : Type :=
| JNull
| JBool (b : bool)
| JNumber (repr : string)
| JString (s : string)
| JArray (items : list json)
| JObject (fields : list (string * json)).

(** Completion of a call: normal return or a thrown value. *)
Inductive Result (A : Type) : Type :=
| Return (a : A)
| Throw (e : jsval).
Arguments Return {A} a.
Arguments Throw {A} e.

Definition is_throw {A} (r : Result A) : bool :=
  match r with Throw _ => true | Return _ => false end.

(** Decimal rendering of an integer inside a template literal. *)
Definition string_of_Z (z : Z) : string := NilZero.string_of_int (Z.to_int z).

(** ** Effects and the world *)

Inductive level : Type := LOG | WARN | ERROR.

Inductive tagval : Type :=
| TagStr (s : string)
| TagNum (n : Z)
| TagBool (b : bool).

Inductive MetricType : Type := Gauge | Count | Rate.

(** One element of the [series] array of the metrics payload. *)
Record MetricSeries : Type := mkSeries {
  metric : string;
  type : MetricType;
  points : list (Z * Z);
  tags : list string
}.

(** The object handed to [JSON.stringify] before it is written to the
    request; the serialised text itself is not modelled. *)
Inductive Payload : Type :=
| SeriesPayload (series : list MetricSeries)
| LogPayload (entry : list (string * json)).

(** [https.RequestOptions] and the body written by [req.write].  The
    [Content-Length] header, a function of the serialised text, is left
    out. *)
Record HttpRequest : Type := mkRequest {
  hostname : string;
  port : Z;
  path : string;
  method : string;
  headers : list (string * string);
  body : Payload
}.

(** What comes back for a request: the ['end'] of a response with its status
    code and body, or the ['error'] event of the request. *)
Inductive HttpOutcome : Type :=
| HttpResponse (statusCode : Z) (responseBody : string)
| HttpError (errorMessage : string).

(** The two methods of [LLMMetrics] that make up a direct report. *)
Inductive Report : Type :=
| ReportSuccess
| ReportError (errorMessage : string).

(** Observable actions, in the order in which they happen.  [EvCall] and
    [EvReport] are call markers: they record that [retryOperation] invoked
    its [operation] with the given attempt number, and that
    [recordSuccess] or [recordError] was entered. *)
Inductive event : Type :=
| EvConsole (lvl : level) (msg : string) (arg : option jsval)
| EvSleep (ms : Z)
| EvCall (operationName : string) (attempt : Z)
| EvDateNow (t : Z)
| EvSpanStart (id : nat) (spanName : string) (childOf : option nat)
              (spanTags : list (string * tagval))
| EvSetTag (id : nat) (key : string) (val : tagval)
| EvFinish (id : nat)
| EvReport (r : Report)
| EvHttp (req : HttpRequest).

(** [process.env], read once when the modules are loaded. *)
Record Env : Type := mkEnv {
  env_DD_API_KEY : option string;
  env_DD_SITE : option string;
  env_DD_SERVICE : option string;
  env_DD_ENV : option string
}.

(** What the surroundings answer.  [clock n] is the value of the [n]-th
    reading of [Date.now()]; [network n] is the outcome of the [n]-th HTTPS
    request and [arrival n] the instant at which that outcome reaches the
    process (requests pending together complete by increasing [arrival]). *)
Record Host : Type := mkHost {
  env : Env;
  clock : nat -> Z;
  network : nat -> HttpOutcome;
  arrival : nat -> nat
}.

(** The world of one invocation.  [ext] is the part of the surroundings that
    only the retried operations touch (for the pipeline, the Gemini
    backend). *)
Record World (S : Type) : Type := mkWorld {
  ext : S;
  trace : list event;
  host : Host
}.
Arguments mkWorld {S} ext trace host.
Arguments ext {S} w.
Arguments trace {S} w.
Arguments host {S} w.

(** Computations over a state [W] that may throw. *)
Definition M (W A : Type) : Type := W -> Result A * W.

Definition ret {W A} (a : A) : M W A := fun w => (Return a, w).
Definition throw {W A} (e : jsval) : M W A := fun w => (Throw e, w).
Definition bind {W A B} (m : M W A) (k : A -> M W B) : M W B :=
  fun w => match m w with
           | (Return a, w') => k a w'
           | (Throw e, w') => (Throw e, w')
           end.

Declare Scope js_scope.
Delimit Scope js_scope with js.
Notation "x <- m ;; k" := (bind m (fun x => k))
  (at level 61, m at next level, right associativity) : js_scope.
Notation "' pat <- m ;; k" :=
  (bind m (fun x => match x with pat => k end))
  (at level 61, pat pattern, m at next level, right associativity) : js_scope.
Notation "m ;; k" := (bind m (fun _ => k))
  (at level 61, right associativity) : js_scope.

(** A completion that is already known. *)
Definition settle {W A} (r : Result A) : M W A := fun w => (r, w).

(** An action that cannot fail, as a computation. *)
Definition exec {W} (f : W -> W) : M W unit :=
  fun w => (Return tt, f w).

(** [try { body } catch (error) { handler }] *)
Definition try_catch {W A} (body : M W A) (handler : jsval -> M W A) : M W A :=
  fun w => match body w with
           | (Return a, w') => (Return a, w')
           | (Throw e, w') => handler e w'
           end.

(** [try { body } finally { cleanup }], for a [cleanup] that does not itself
    return: the completion of [body] stands unless [cleanup] throws. *)
Definition try_finally {W A} (body : M W A) (cleanup : M W unit) : M W A :=
  fun w => match body w with
           | (r, w') => match cleanup w' with
                        | (Return _, w'') => (r, w'')
                        | (Throw e, w'') => (Throw e, w'')
                        end
           end.

(** Appending one event. *)
Definition emit {S} (e : event) (w : World S) : World S :=
  mkWorld (ext w) (trace w ++ [e]) (host w).

(** Running a computation of the operation's own world inside the world. *)
Definition on_ext {S A} (f : M S A) : M (World S) A :=
  fun w => match f (ext w) with
           | (r, s') => (r, mkWorld s' (trace w) (host w))
           end.

Definition console {S} (lvl : level) (msg : string) (arg : option jsval)
  : World S -> World S := emit (EvConsole lvl msg arg).
Definition console_log {S} (msg : string) : World S -> World S :=
  console LOG msg None.
Definition console_error {S} (msg : string) : World S -> World S :=
  console ERROR msg None.

(** [await new Promise(resolve => setTimeout(resolve, ms))] *)
Definition sleep {S} (ms : Z) : World S -> World S := emit (EvSleep ms).

Definition is_date_now (e : event) : bool :=
  match e with EvDateNow _ => true | _ => false end.
Definition is_span_start (e : event) : bool :=
  match e with EvSpanStart _ _ _ _ => true | _ => false end.
Definition is_http (e : event) : bool :=
  match e with EvHttp _ => true | _ => false end.

Definition count_events (p : event -> bool) (tr : list event) : nat :=
  List.length (filter p tr).

(** A call that cannot fail and yields a value, as a computation. *)
Definition call {W A} (f : W -> A * W) : M W A :=
  fun w => match f w with (a, w') => (Return a, w') end.

(** [Date.now()] *)
Definition Date_now {S} (w : World S) : Z * World S :=
  let t := clock (host w) (count_events is_date_now (trace w)) in
  (t, emit (EvDateNow t) w).

(** ** geminiService.ts: configuration and the retry helper *)

Module CONFIG.
Definition POSE_ANALYSIS_MODEL : string := "gemini-2.5-flash".
Definition IMAGE_GENERATION_MODEL : string := "gemini-3-pro-image-preview".
Definition MAX_RETRIES : Z := 3.
Definition RETRY_DELAY_MS : Z := 2000.
End CONFIG.

Section RetryOperation.
Context {S T : Type}.
Variable operation : Z -> M S T.
Variable operationName : string.
Variable maxAttempts : Z.
Variable delayMs : Z.

(** The [try] block of one iteration. *)
Definition attempt_body (attempt : Z) : M (World S) T :=
  (exec (fun w =>
           if 1 <? attempt
           then console_log ("[" +++ operationName +++ "] Attempt "
                               +++ string_of_Z attempt +++ "/"
                               +++ string_of_Z maxAttempts +++ " started...") w
           else w) ;;
   exec (emit (EvCall operationName attempt)) ;;
   on_ext (operation attempt))%js.

(** The [catch] block of one iteration, after [lastError = error]. *)
Definition attempt_failed (attempt : Z) (error : jsval)
  : World S -> World S :=
  fun w =>
    let w1 := console WARN ("[" +++ operationName +++ "] Attempt "
                              +++ string_of_Z attempt +++ " failed:")
                      (Some error) w in
    if attempt <? maxAttempts
    then sleep delayMs
           (console_log ("[" +++ operationName +++ "] Retrying in "
                           +++ string_of_Z delayMs +++ "ms...") w1)
    else w1.

(** The code after the loop. *)
Definition attempts_exhausted (lastError : jsval) : M (World S) T :=
  (exec (console_error ("[" +++ operationName +++ "] All "
                          +++ string_of_Z maxAttempts
                          +++ " attempts failed.")) ;;
   throw lastError)%js.

(** The [for] loop, entered with the current values of [attempt] and
    [lastError]. *)
Equations? retry_loop (attempt : Z) (lastError : jsval) (w : World S)
  : Result T * World S by wf (Z.to_nat (maxAttempts + 1 - attempt)) lt :=
  retry_loop attempt lastError w with Z_le_gt_dec attempt maxAttempts := {
    | right _ := attempts_exhausted lastError w
    | left _ with attempt_body attempt w := {
        | (Return v, w1) := (Return v, w1)
        | (Throw error, w1) :=
            retry_loop (attempt + 1) error (attempt_failed attempt error w1) } }.
Proof. lia. Qed.

Definition retryOperation : M (World S) T := retry_loop 1 JsUndefined.

End RetryOperation.

(** ** JavaScript built-ins used by the two remote operations *)

Definition nl : string := String "010"%char EmptyString.

(** White space removed by [String.prototype.trim], restricted to the
    one-byte characters (tab, line feed, vertical tab, form feed, carriage
    return, space). *)
Definition is_space (c : ascii) : bool :=
  let n := nat_of_ascii c in
  ((9 <=? n)%nat && (n <=? 13)%nat) || (n =? 32)%nat.

Fixpoint trimStart (s : string) : string :=
  match s with
  | EmptyString => EmptyString
  | String c s' => if is_space c then trimStart s' else s
  end.

Fixpoint trimEnd (s : string) : string :=
  match s with
  | EmptyString => EmptyString
  | String c s' =>
      match trimEnd s' with
      | EmptyString => if is_space c then EmptyString else String c EmptyString
      | t => String c t
      end
  end.

Definition trim (s : string) : string := trimEnd (trimStart s).

(** Truthiness of a string that may be [undefined]. *)
Definition truthy (s : option string) : bool :=
  match s with
  | Some (String _ _) => true
  | _ => false
  end.

Fixpoint lookup (key : string) (fields : list (string * json)) : option json :=
  match fields with
  | [] => None
  | (k, v) :: rest => if String.eqb k key then Some v else lookup key rest
  end.

(** The property read [v.key] on a value that came out of [JSON.parse]
    ([None] is [undefined]), for the keys the program reads (the seven
    region names and [description]), none of which is inherited from a
    prototype. *)
Definition read_property (v : option json) (key : string)
  : Result (option json) :=
  match v with
  | None =>
      Throw (TypeError ("Cannot read properties of undefined (reading '"
                          +++ key +++ "')"))
  | Some JNull =>
      Throw (TypeError ("Cannot read properties of null (reading '"
                          +++ key +++ "')"))
  | Some (JObject fields) => Return (lookup key fields)
  | Some _ => Return None
  end.

(** String conversion of a substitution in a template literal. *)
Fixpoint to_string (v : json) : string :=
  match v with
  | JNull => "null"
  | JBool true => "true"
  | JBool false => "false"
  | JNumber repr => repr
  | JString s => s
  | JArray items =>
      String.concat ","
        (map (fun i => match i with JNull => "" | _ => to_string i end) items)
  | JObject _ => "[object Object]"
  end.

Definition substitution (v : option json) : string :=
  match v with
  | None => "undefined"
  | Some j => to_string j
  end.

(** ** geminiService.ts: data and the Gemini backend *)

Record ImageData : Type := mkImageData {
  data : string;
  mimeType : string
}.

Record GenerationResult : Type := mkGenerationResult {
  success : bool;
  generatedImage : option string;
  poseDescription : option string;
  poseData : option json;
  error : option string
}.

(** The text part of a request.  The fixed wording of the two prompts is not
    reproduced; the image prompt is kept with the two values interpolated
    into it. *)
Inductive Prompt : Type :=
| PoseAnalysisPrompt
| PoseImagePrompt (description : string) (keypoints : json).

Inductive ContentPart : Type :=
| TextPart (prompt : Prompt)
| InlineDataPart (image : ImageData).

(** [config] of a request: a JSON answer following the seven-region schema,
    or [responseModalities: [Modality.IMAGE]]. *)
Inductive GenerationConfig : Type :=
| JsonSchemaConfig
| ImageModalityConfig.

Record GenerateContentRequest : Type := mkGenRequest {
  req_apiKey : string;
  req_model : string;
  req_parts : list ContentPart;
  req_config : GenerationConfig
}.

Record Blob : Type := mkBlob {
  blob_data : option string;
  blob_mimeType : option string
}.

Record Part : Type := mkPart {
  part_text : option string;
  inlineData : option Blob
}.

Record Content : Type := mkContent {
  parts : option (list Part)
}.

Record Candidate : Type := mkCandidate {
  content : option Content
}.

Record GenerateContentResponse : Type := mkResponse {
  text : option string;
  candidates : option (list Candidate)
}.

Inductive GeminiOutcome : Type :=
| Responds (response : GenerateContentResponse)
| Rejects (reason : jsval).

(** The remote service: its answer to a request may depend on the requests
    it has already received; [requests] is that history. *)
Record Backend : Type := mkBackend {
  respond : list GenerateContentRequest -> GenerateContentRequest
            -> GeminiOutcome;
  requests : list GenerateContentRequest
}.

(** [await ai.models.generateContent(request)] *)
Definition generateContent (request : GenerateContentRequest)
  : M Backend GenerateContentResponse :=
  fun b =>
    let b' := mkBackend (respond b) (requests b ++ [request]) in
    match respond b (requests b) request with
    | Responds response => (Return response, b')
    | Rejects reason => (Throw reason, b')
    end.

Definition inlinePart (image : ImageData) : ContentPart :=
  InlineDataPart (mkImageData (data image) (mimeType image)).

Definition NO_DESCRIPTION : string :=
  "Pose analysis failed. The model did not return a description.".
Definition NO_IMAGE : string :=
  "Image generation failed. The model did not return an image.".

(** The loop over [response.candidates[0].content.parts]. *)
Fixpoint first_inline_data (ps : list Part) : option string :=
  match ps with
  | [] => None
  | part :: rest =>
      match inlineData part with
      | Some blob =>
          if truthy (blob_data blob) then blob_data blob
          else first_inline_data rest
      | None => first_inline_data rest
      end
  end.

Section Gemini.
(** [JSON.parse], which returns a value or throws a [SyntaxError]. *)
Variable JSON_parse : string -> Result json.

(** [poseData.<region>.description] *)
Definition region_description (poseData : json) (region : string)
  : Result (option json) :=
  match read_property (Some poseData) region with
  | Return r => read_property r "description"
  | Throw e => Throw e
  end.

(** The template literal of [formattedDescription], before [trim]. *)
Definition description_template
           (overall head torso leftArm rightArm leftLeg rightLeg : string)
  : string :=
  nl +++ "- **Overall:** " +++ overall +++
  nl +++ "- **Head:** " +++ head +++
  nl +++ "- **Torso:** " +++ torso +++
  nl +++ "- **Arms:**" +++
  nl +++ "  - Left: " +++ leftArm +++
  nl +++ "  - Right: " +++ rightArm +++
  nl +++ "- **Legs:**" +++
  nl +++ "  - Left: " +++ leftLeg +++
  nl +++ "  - Right: " +++ rightLeg +++
  nl +++ "    ".

Definition formatDescription (poseData : json) : M Backend string :=
  (overall <- settle (region_description poseData "overall") ;;
   head <- settle (region_description poseData "head") ;;
   torso <- settle (region_description poseData "torso") ;;
   leftArm <- settle (region_description poseData "leftArm") ;;
   rightArm <- settle (region_description poseData "rightArm") ;;
   leftLeg <- settle (region_description poseData "leftLeg") ;;
   rightLeg <- settle (region_description poseData "rightLeg") ;;
   ret (trim (description_template
                (substitution overall) (substitution head)
                (substitution torso) (substitution leftArm)
                (substitution rightArm) (substitution leftLeg)
                (substitution rightLeg))))%js.

(** The operation that [generatePoseDescription] retries. *)
Definition analyzePose (apiKey : string) (poseImage : ImageData)
           (attempt : Z) : M Backend (string * json) :=
  (response <- generateContent
                 (mkGenRequest apiKey CONFIG.POSE_ANALYSIS_MODEL
                    [TextPart PoseAnalysisPrompt; inlinePart poseImage]
                    JsonSchemaConfig) ;;
   match text response with
   | Some responseText =>
       if truthy (Some responseText)
       then (poseData <- settle (JSON_parse (trim responseText)) ;;
             formattedDescription <- formatDescription poseData ;;
             ret (formattedDescription, poseData))
       else throw (new_Error NO_DESCRIPTION)
   | None => throw (new_Error NO_DESCRIPTION)
   end)%js.

Definition generatePoseDescription (apiKey : string) (poseImage : ImageData)
  : M (World Backend) (string * json) :=
  retryOperation (analyzePose apiKey poseImage) "generatePoseDescription"
                 CONFIG.MAX_RETRIES CONFIG.RETRY_DELAY_MS.

(** The guard
    [response.candidates && response.candidates[0].content &&
     response.candidates[0].content.parts]:
    the parts to scan when it is truthy, [None] when it is falsy.  Reading
    [.content] of the missing first element of an empty array throws. *)
Definition candidate_parts (response : GenerateContentResponse)
  : Result (option (list Part)) :=
  match candidates response with
  | None => Return None
  | Some [] =>
      Throw (TypeError
               "Cannot read properties of undefined (reading 'content')")
  | Some (first :: _) =>
      match content first with
      | None => Return None
      | Some c => Return (parts c)
      end
  end.

(** The operation that [generatePoseImage] retries. *)
Definition generateImage (apiKey : string) (userImage poseImage : ImageData)
           (description : string) (keypoints : json) (attempt : Z)
  : M Backend string :=
  (response <- generateContent
                 (mkGenRequest apiKey CONFIG.IMAGE_GENERATION_MODEL
                    [inlinePart userImage; inlinePart poseImage;
                     TextPart (PoseImagePrompt description keypoints)]
                    ImageModalityConfig) ;;
   scanned <- settle (candidate_parts response) ;;
   match scanned with
   | Some ps =>
       match first_inline_data ps with
       | Some image => ret image
       | None => throw (new_Error NO_IMAGE)
       end
   | None => throw (new_Error NO_IMAGE)
   end)%js.

Definition generatePoseImage (apiKey : string)
           (userImage poseImage : ImageData)
           (description : string) (keypoints : json)
  : M (World Backend) string :=
  retryOperation
    (generateImage apiKey userImage poseImage description keypoints)
    "generatePoseImage" CONFIG.MAX_RETRIES CONFIG.RETRY_DELAY_MS.

End Gemini.

(** ** datadogApi.ts: direct HTTP reports *)

(** [process.env.X || fallback] *)
Definition or_default (v : option string) (fallback : string) : string :=
  match v with
  | Some (String c rest) => String c rest
  | _ => fallback
  end.

Definition DD_API_KEY (h : Host) : option string := env_DD_API_KEY (env h).
Definition DD_SITE (h : Host) : string :=
  or_default (env_DD_SITE (env h)) "us5.datadoghq.com".
Definition DD_SERVICE (h : Host) : string :=
  or_default (env_DD_SERVICE (env h)) "poseshift-ai".
Definition DD_ENV (h : Host) : string :=
  or_default (env_DD_ENV (env h)) "prod".

(** The [level] parameter of [sendLog]. *)
Inductive LogLevel : Type := level_info | level_warn | level_error.

Definition level_name (l : LogLevel) : string :=
  match l with
  | level_info => "info"
  | level_warn => "warn"
  | level_error => "error"
  end.

(** Writing one property of an object literal: an existing key keeps its
    place and takes the new value, a new key goes last. *)
Fixpoint set_property (key : string) (v : json) (obj : list (string * json))
  : list (string * json) :=
  match obj with
  | [] => [(key, v)]
  | (k, old) :: rest =>
      if String.eqb k key then (k, v) :: rest
      else (k, old) :: set_property key v rest
  end.

(** [{ ...obj, ...more }] *)
Definition spread (obj more : list (string * json)) : list (string * json) :=
  fold_left (fun acc kv => set_property (fst kv) (snd kv) acc) more obj.

Section Promises.
Context {S : Type}.

(** A promise whose settlement is tied to at most one HTTPS request:
    either it is settled already, or it settles when the outcome of
    request number [request] arrives, by running [onOutcome] (the
    callbacks registered on the request and on its response). *)
Inductive Promise (A : Type) : Type :=
| Settled (r : Result A)
| Pending (request : nat) (onOutcome : HttpOutcome -> M (World S) A).
Arguments Settled {A} r.
Arguments Pending {A} request onOutcome.

(** [https.request(options, ...)], [req.write(data)], [req.end()]: the
    request leaves and is numbered in order of departure. *)
Definition https_request (options : HttpRequest) (w : World S)
  : nat * World S :=
  (count_events is_http (trace w), emit (EvHttp options) w).

(** The request of [sendMetric]: [payload] and [options], for a clock
    reading [now]. *)
Definition metric_request (h : Host) (apiKey : string) (metricName : string)
           (value : Z) (tags : list string) (metricType : MetricType)
           (now : Z) : HttpRequest :=
  let timestamp := now / 1000 in
  let allTags :=
    ("service:" +++ DD_SERVICE h) :: ("env:" +++ DD_ENV h) :: tags in
  let payload :=
    SeriesPayload
      [mkSeries metricName metricType [(timestamp, value)] allTags] in
  mkRequest ("api." +++ DD_SITE h) 443 "/api/v1/series" "POST"
            [("Content-Type", "application/json"); ("DD-API-KEY", apiKey)]
            payload.

(** The callbacks of [sendMetric]: on the ['end'] of the response and on the
    ['error'] of the request.  Each branch ends with [resolve()]. *)
Definition metric_settled (metricName : string) (value : Z)
           (outcome : HttpOutcome) : M (World S) unit :=
  match outcome with
  | HttpResponse statusCode responseBody =>
      if statusCode =? 202
      then (exec (console_log
                    ("[Datadog API] Metric sent: " +++ metricName
                       +++ " = " +++ string_of_Z value)) ;;
            ret tt)%js
      else (exec (console_error
                    ("[Datadog API] Error: " +++ string_of_Z statusCode
                       +++ " - " +++ responseBody)) ;;
            ret tt)%js
  | HttpError errorMessage =>
      (exec (console_error
               ("[Datadog API] Request error: " +++ errorMessage)) ;;
       ret tt)%js
  end.

Definition sendMetric (metricName : string) (value : Z)
           (tags : list string) (metricType : MetricType)
           (w : World S) : Promise unit * World S :=
  match DD_API_KEY (host w) with
  | Some (String c rest) =>
      let (now, w1) := Date_now w in
      let (id, w2) :=
        https_request
          (metric_request (host w) (String c rest) metricName value tags
                          metricType now) w1 in
      (Pending id (metric_settled metricName value), w2)
  | _ =>
      (Settled (Return tt),
       console_log "[Datadog API] No API key, skipping metric" w)
  end.

(** The request of [sendLog]: [logEntry] and [options]. *)
Definition log_request (h : Host) (apiKey : string) (message : string)
           (level : LogLevel) (additionalData : list (string * json))
  : HttpRequest :=
  let logEntry :=
    spread
      [("ddsource", JString "nodejs");
       ("ddtags", JString ("env:" +++ DD_ENV h
                             +++ ",service:" +++ DD_SERVICE h));
       ("hostname", JString "firebase-functions");
       ("message", JString message);
       ("service", JString (DD_SERVICE h));
       ("status", JString (level_name level))]
      additionalData in
  mkRequest ("http-intake.logs." +++ DD_SITE h) 443 "/api/v2/logs" "POST"
            [("Content-Type", "application/json"); ("DD-API-KEY", apiKey)]
            (LogPayload logEntry).

(** The callbacks of [sendLog]. *)
Definition log_settled (message : string) (outcome : HttpOutcome)
  : M (World S) unit :=
  match outcome with
  | HttpResponse statusCode responseBody =>
      (exec (if (statusCode =? 200) || (statusCode =? 202)
             then console_log
                    ("[Datadog API] Log sent: "
                       +++ substring 0 50 message +++ "...")
             else console_error
                    ("[Datadog API] Log error: " +++ string_of_Z statusCode
                       +++ " - " +++ responseBody)) ;;
       ret tt)%js
  | HttpError errorMessage =>
      (exec (console_error
               ("[Datadog API] Log request error: " +++ errorMessage)) ;;
       ret tt)%js
  end.

Definition sendLog (message : string) (level : LogLevel)
           (additionalData : list (string * json))
           (w : World S) : Promise unit * World S :=
  match DD_API_KEY (host w) with
  | Some (String c rest) =>
      let (id, w1) :=
        https_request
          (log_request (host w) (String c rest) message level additionalData)
          w in
      (Pending id (log_settled message), w1)
  | _ =>
      (Settled (Return tt),
       console_log "[Datadog API] No API key, skipping log" w)
  end.

(** *** [Promise.all] *)

Definition Completion (A : Type) : Type :=
  (nat * (HttpOutcome -> M (World S) A))%type.

Fixpoint pending_of {A} (ps : list (Promise A)) : list (Completion A) :=
  match ps with
  | [] => []
  | Settled _ :: rest => pending_of rest
  | Pending id k :: rest => (id, k) :: pending_of rest
  end.

Fixpoint settled_of {A} (ps : list (Promise A)) : list (Result A) :=
  match ps with
  | [] => []
  | Settled r :: rest => r :: settled_of rest
  | Pending _ _ :: rest => settled_of rest
  end.

(** Pending requests complete by increasing arrival instant, the earlier
    request first when two instants are equal. *)
Fixpoint insert_by_arrival {A} (h : Host) (c : Completion A)
         (sorted : list (Completion A)) : list (Completion A) :=
  match sorted with
  | [] => [c]
  | d :: rest =>
      if (arrival h (fst c) <=? arrival h (fst d))%nat
      then c :: d :: rest
      else d :: insert_by_arrival h c rest
  end.

Definition completion_order {A} (h : Host) (cs : list (Completion A))
  : list (Completion A) :=
  fold_right (insert_by_arrival h) [] cs.

(** The callbacks run one after the other, each on the outcome that the
    network has for its request. *)
Fixpoint run_completions {A} (cs : list (Completion A)) (w : World S)
  : list (Result A) * World S :=
  match cs with
  | [] => ([], w)
  | (id, k) :: rest =>
      match k (network (host w) id) w with
      | (r, w1) =>
          match run_completions rest w1 with
          | (rs, w2) => (r :: rs, w2)
          end
      end
  end.

(** [await Promise.all(ps)], for callers that discard the array of
    results: every member is driven to its settlement, and the first
    rejection, if there is one, is thrown. *)
Definition Promise_all {A} (ps : list (Promise A)) : M (World S) unit :=
  fun w =>
    match run_completions (completion_order (host w) (pending_of ps)) w with
    | (later, w') =>
        match find is_throw (settled_of ps ++ later) with
        | Some (Throw e) => (Throw e, w')
        | _ => (Return tt, w')
        end
    end.

(** *** [class LLMMetrics] *)

Record LLMMetrics : Type := mkLLMMetrics {
  startTime : Z;
  operationName : string;
  modelName : string
}.

Definition new_LLMMetrics (operation model : string) (w : World S)
  : LLMMetrics * World S :=
  let (now, w1) := Date_now w in
  (mkLLMMetrics now operation model,
   console_log ("[LLM Metrics] Starting: " +++ operation
                  +++ " with " +++ model) w1).

Definition recordSuccess (this : LLMMetrics) : M (World S) unit :=
  (exec (emit (EvReport ReportSuccess)) ;;
   now <- call Date_now ;;
   let latency := now - startTime this in
   p1 <- call (sendMetric "poseshift.llm.request.count" 1
                 ["operation:" +++ operationName this;
                  "model:" +++ modelName this;
                  "status:success"] Count) ;;
   p2 <- call (sendMetric "poseshift.llm.request.latency" latency
                 ["operation:" +++ operationName this;
                  "model:" +++ modelName this] Gauge) ;;
   p3 <- call (sendLog ("LLM generation completed: " +++ operationName this)
                 level_info
                 [("operation", JString (operationName this));
                  ("model", JString (modelName this));
                  ("latency_ms", JNumber (string_of_Z latency));
                  ("status", JString "success")]) ;;
   Promise_all [p1; p2; p3])%js.

Definition recordError (this : LLMMetrics) (errorMessage : string)
  : M (World S) unit :=
  (exec (emit (EvReport (ReportError errorMessage))) ;;
   now <- call Date_now ;;
   let latency := now - startTime this in
   p1 <- call (sendMetric "poseshift.llm.request.count" 1
                 ["operation:" +++ operationName this;
                  "model:" +++ modelName this;
                  "status:error"] Count) ;;
   p2 <- call (sendMetric "poseshift.llm.error.count" 1
                 ["operation:" +++ operationName this;
                  "model:" +++ modelName this] Count) ;;
   p3 <- call (sendLog ("LLM generation failed: " +++ operationName this
                          +++ " - " +++ errorMessage)
                 level_error
                 [("operation", JString (operationName this));
                  ("model", JString (modelName this));
                  ("latency_ms", JNumber (string_of_Z latency));
                  ("status", JString "error");
                  ("error", JString errorMessage)]) ;;
   Promise_all [p1; p2; p3])%js.

End Promises.
Arguments Settled {S A} r.
Arguments Pending {S A} request onOutcome.

(** ** datadog.ts: the tracer and its helper *)

Section Tracer.
Context {S : Type}.

(** [tracer.startSpan(name, { childOf, tags })]: spans are numbered in
    order of creation. *)
Definition startSpan (spanName : string) (childOf : option nat)
           (spanTags : list (string * tagval)) (w : World S)
  : nat * World S :=
  let id := count_events is_span_start (trace w) in
  (id, emit (EvSpanStart id spanName childOf spanTags) w).

Definition setTag (span : nat) (key : string) (val : tagval)
  : World S -> World S := emit (EvSetTag span key val).

Definition finish (span : nat) : World S -> World S := emit (EvFinish span).

(** [datadogHelper.startLLMSpan] *)
Definition startLLMSpan (operation model : string) (w : World S)
  : nat * World S :=
  startSpan ("llm." +++ operation) None
            [("llm.provider", TagStr "google");
             ("llm.model", TagStr model);
             ("llm.request_type", TagStr "pose_transformation")]
            (console_log ("[Datadog] Creating span: llm." +++ operation
                            +++ ", model: " +++ model) w).

(** [datadogHelper.recordGeneration] *)
Definition recordGeneration (ok : bool) (latencyMs : Z)
           (errorType : option string) : World S -> World S :=
  let status := if ok then "success" else "error" in
  console_log ("[Datadog] Generation " +++ status +++ ", latency: "
                 +++ string_of_Z latencyMs +++ "ms"
                 +++ (if truthy errorType
                      then ", error: " +++ or_default errorType ""
                      else "")).

End Tracer.

(** ** geminiService.ts: the pipeline *)

Section Pipeline.
Variable JSON_parse : string -> Result json.

(** [error instanceof Error ? error.message : 'Unknown error'] *)
Definition errorMessageOf (error : jsval) : string :=
  match error with
  | JsError _ message => message
  | _ => "Unknown error"
  end.

(** The [try] block of [generateWithPose]. *)
Definition pipeline_steps (apiKey : string) (userImage poseImage : ImageData)
           (startTime : Z) (metrics : LLMMetrics) (parentSpan : nat)
  : M (World Backend) GenerationResult :=
  (exec (console_log "[generateWithPose] Step 1: Analyzing pose...") ;;
   analyzeSpan <- call (startSpan "llm.pose_analysis" (Some parentSpan)
                          [("llm.model", TagStr CONFIG.POSE_ANALYSIS_MODEL);
                           ("llm.operation", TagStr "text_generation")]) ;;
   ' (formattedDescription, poseData) <-
       generatePoseDescription JSON_parse apiKey poseImage ;;
   exec (setTag analyzeSpan "llm.status" (TagStr "success")) ;;
   exec (finish analyzeSpan) ;;
   exec (console_log "[generateWithPose] Pose analysis complete") ;;
   exec (console_log "[generateWithPose] Step 2: Generating image...") ;;
   generateSpan <- call (startSpan "llm.image_generation" (Some parentSpan)
                           [("llm.model",
                             TagStr CONFIG.IMAGE_GENERATION_MODEL);
                            ("llm.operation", TagStr "image_generation")]) ;;
   generatedImage <-
     generatePoseImage apiKey userImage poseImage
                       formattedDescription poseData ;;
   exec (setTag generateSpan "llm.status" (TagStr "success")) ;;
   exec (finish generateSpan) ;;
   exec (console_log "[generateWithPose] Image generation complete") ;;
   now <- call Date_now ;;
   let latencyMs := now - startTime in
   exec (setTag parentSpan "llm.status" (TagStr "success")) ;;
   exec (setTag parentSpan "llm.latency_ms" (TagNum latencyMs)) ;;
   exec (recordGeneration true latencyMs None) ;;
   recordSuccess metrics ;;
   ret (mkGenerationResult true (Some generatedImage)
                           (Some formattedDescription) (Some poseData)
                           None))%js.

(** The [catch] block of [generateWithPose]. *)
Definition pipeline_failed (startTime : Z) (metrics : LLMMetrics)
           (parentSpan : nat) (error : jsval)
  : M (World Backend) GenerationResult :=
  (now <- call Date_now ;;
   let latencyMs := now - startTime in
   let errorMessage := errorMessageOf error in
   exec (setTag parentSpan "llm.status" (TagStr "error")) ;;
   exec (setTag parentSpan "error" (TagBool true)) ;;
   exec (setTag parentSpan "error.message" (TagStr errorMessage)) ;;
   exec (recordGeneration false latencyMs (Some errorMessage)) ;;
   recordError metrics errorMessage ;;
   exec (console ERROR "[generateWithPose] Error:" (Some error)) ;;
   ret (mkGenerationResult false None None None (Some errorMessage)))%js.

Definition generateWithPose (apiKey : string)
           (userImage poseImage : ImageData)
  : M (World Backend) GenerationResult :=
  (startTime <- call Date_now ;;
   metrics <- call (new_LLMMetrics "full_generation" "gemini-pipeline") ;;
   parentSpan <- call (startLLMSpan "full_generation" "gemini-pipeline") ;;
   try_finally
     (try_catch
        (pipeline_steps apiKey userImage poseImage
                        startTime metrics parentSpan)
        (pipeline_failed startTime metrics parentSpan))
     (exec (finish parentSpan)))%js.

End Pipeline.

(** ** Reading a run *)

(** The attempts and delays of a run of [retryOperation], in order. *)
Definition is_call_or_sleep (e : event) : bool :=
  match e with
  | EvCall _ _ | EvSleep _ => true
  | _ => false
  end.

Definition is_call (e : event) : bool :=
  match e with EvCall _ _ => true | _ => false end.

Definition is_sleep (e : event) : bool :=
  match e with EvSleep _ => true | _ => false end.

(** Attempts [1] to [n - 1], each followed by the delay, then attempt [n]. *)
Definition attempts_schedule (name : string) (delayMs : Z) (n : nat)
  : list event :=
  flat_map (fun k => [EvCall name (Z.of_nat k); EvSleep delayMs])
           (seq 1 (n - 1))
  ++ [EvCall name (Z.of_nat n)].

Section Attempts.
Context {S T : Type}.
Variable operation : Z -> M S T.

(** The state of the operation's world once attempts [1] to [k] have run
    one after the other from [s]. *)
Fixpoint state_after (k : nat) (s : S) : S :=
  match k with
  | O => s
  | Datatypes.S k' => snd (operation (Z.of_nat k) (state_after k' s))
  end.

(** The completion of attempt [k] (counted from one) in that sequence. *)
Definition outcome_of_attempt (k : nat) (s : S) : Result T :=
  fst (operation (Z.of_nat k) (state_after (k - 1) s)).

End Attempts.

(** Events that [retryOperation] itself produces for the operation [name]. *)
Definition is_retry_event (name : string) (e : event) : bool :=
  match e with
  | EvConsole _ _ _ | EvSleep _ => true
  | EvCall n _ => String.eqb n name
  | _ => false
  end.

(** What one iteration of the loop appends to the trace: before and at the
    call of the operation, and in the [catch] block. *)
Definition started_events (name : string) (maxAttempts attempt : Z)
  : list event :=
  (if 1 <? attempt
   then [EvConsole LOG ("[" +++ name +++ "] Attempt "
                          +++ string_of_Z attempt +++ "/"
                          +++ string_of_Z maxAttempts +++ " started...") None]
   else [])
  ++ [EvCall name attempt].

Definition failed_events (name : string) (maxAttempts delayMs attempt : Z)
           (error : jsval) : list event :=
  EvConsole WARN ("[" +++ name +++ "] Attempt "
                    +++ string_of_Z attempt +++ " failed:") (Some error)
  :: (if attempt <? maxAttempts
      then [EvConsole LOG ("[" +++ name +++ "] Retrying in "
                             +++ string_of_Z delayMs +++ "ms...") None;
            EvSleep delayMs]
      else []).

(** Classes of events. *)
Definition is_console (e : event) : bool :=
  match e with EvConsole _ _ _ => true | _ => false end.

(** What the direct-report path may add to a trace after it is entered. *)
Definition is_delivery_event (e : event) : bool :=
  match e with
  | EvConsole _ _ _ | EvDateNow _ | EvHttp _ => true
  | _ => false
  end.

Definition http_requests (evs : list event) : list HttpRequest :=
  flat_map (fun e => match e with EvHttp r => [r] | _ => [] end) evs.

(** [!DD_API_KEY] is false. *)
Definition key_present (h : Host) : bool := truthy (DD_API_KEY h).

(** The outcomes that [sendMetric] and [sendLog] count as a delivery. *)
Definition metric_delivered (o : HttpOutcome) : bool :=
  match o with
  | HttpResponse statusCode _ => statusCode =? 202
  | HttpError _ => false
  end.

Definition log_delivered (o : HttpOutcome) : bool :=
  match o with
  | HttpResponse statusCode _ => (statusCode =? 200) || (statusCode =? 202)
  | HttpError _ => false
  end.


(** The same without the level. *)
Definition quiet_callback {S : Type}
           (k : HttpOutcome -> M (World S) unit) : Prop :=
  forall o (w : World S),
  exists lvl msg, k o w = (Return tt, console lvl msg None w).

Definition quiet {S : Type} (p : @Promise S unit) : Prop :=
  match p with
  | Settled r => r = Return tt
  | Pending _ onOutcome => quiet_callback onOutcome
  end.

(** The three requests of [recordSuccess] and of [recordError], for the
    clock readings taken by the method ([t0]) and by the two [sendMetric]
    ([t1], [t2]). *)
Definition success_requests (h : Host) (apiKey : string) (this : LLMMetrics)
           (t0 t1 t2 : Z) : list HttpRequest :=
  let latency := t0 - startTime this in
  [metric_request h apiKey "poseshift.llm.request.count" 1
                  ["operation:" +++ operationName this;
                   "model:" +++ modelName this; "status:success"] Count t1;
   metric_request h apiKey "poseshift.llm.request.latency" latency
                  ["operation:" +++ operationName this;
                   "model:" +++ modelName this] Gauge t2;
   log_request h apiKey
               ("LLM generation completed: " +++ operationName this)
               level_info
               [("operation", JString (operationName this));
                ("model", JString (modelName this));
                ("latency_ms", JNumber (string_of_Z latency));
                ("status", JString "success")]].

Definition error_requests (h : Host) (apiKey : string) (this : LLMMetrics)
           (errorMessage : string) (t0 t1 t2 : Z) : list HttpRequest :=
  let latency := t0 - startTime this in
  [metric_request h apiKey "poseshift.llm.request.count" 1
                  ["operation:" +++ operationName this;
                   "model:" +++ modelName this; "status:error"] Count t1;
   metric_request h apiKey "poseshift.llm.error.count" 1
                  ["operation:" +++ operationName this;
                   "model:" +++ modelName this] Count t2;
   log_request h apiKey
               ("LLM generation failed: " +++ operationName this
                  +++ " - " +++ errorMessage)
               level_error
               [("operation", JString (operationName this));
                ("model", JString (modelName this));
                ("latency_ms", JNumber (string_of_Z latency));
                ("status", JString "error");
                ("error", JString errorMessage)]].

(** Between two states of the backend: the service is the same and what
    it has been asked in between went to [model] only. *)
Definition only_asks (model : string) (b b' : Backend) : Prop :=
  respond b' = respond b
  /\ exists reqs,
      requests b' = requests b ++ reqs
      /\ Forall (fun r => req_model r = model) reqs.

(** What is done to the span [parent] and to the report path: the status
    tag of the span, its finish, and the entries into [recordSuccess] and
    [recordError]. *)
Definition is_parent_event (parent : nat) (e : event) : bool :=
  match e with
  | EvSetTag id key _ => (id =? parent)%nat && String.eqb key "llm.status"
  | EvFinish id => (id =? parent)%nat
  | EvReport _ => true
  | _ => false
  end.

Definition is_call_of (name : string) (e : event) : bool :=
  match e with
  | EvCall n _ => String.eqb n name
  | _ => false
  end.




(** The two shapes of a [GenerationResult]. *)
Definition succeeded (image description : string) (keypoints : json)
  : GenerationResult :=
  mkGenerationResult true (Some image) (Some description) (Some keypoints)
                     None.

Definition failed (errorMessage : string) : GenerationResult :=
  mkGenerationResult false None None None (Some errorMessage).

(** The report that matches a result. *)
Definition report_of (result : GenerationResult) : Report :=
  if success result then ReportSuccess
  else ReportError (match error result with Some m => m | None => "" end).

Definition status_of (result : GenerationResult) : string :=
  if success result then "success" else "error".

(** Computations that leave the state as it is. *)
Definition stateless {W A} (m : M W A) : Prop := forall w, snd (m w) = w.

(** What [generateWithPose] appends before its [try] block, from a trace
    [tr]: the start time, the construction of [LLMMetrics], and the parent
    span. *)
Definition prelude_events (h : Host) (tr : list event) : list event :=
  let t0 := clock h (count_events is_date_now tr) in
  let t1 := clock h (count_events is_date_now (tr ++ [EvDateNow t0])) in
  [EvDateNow t0;
   EvDateNow t1;
   EvConsole LOG ("[LLM Metrics] Starting: " +++ "full_generation"
                    +++ " with " +++ "gemini-pipeline") None;
   EvConsole LOG ("[Datadog] Creating span: llm." +++ "full_generation"
                    +++ ", model: " +++ "gemini-pipeline") None;
   EvSpanStart (count_events is_span_start tr)
               ("llm." +++ "full_generation") None
               [("llm.provider", TagStr "google");
                ("llm.model", TagStr "gemini-pipeline");
                ("llm.request_type", TagStr "pose_transformation")]].

(** The tracker built by [generateWithPose]. *)
Definition pipeline_metrics (h : Host) (tr : list event) : LLMMetrics :=
  let t0 := clock h (count_events is_date_now tr) in
  mkLLMMetrics (clock h (count_events is_date_now (tr ++ [EvDateNow t0])))
               "full_generation" "gemini-pipeline".





(** A result populates exactly one of its two branches. *)
Definition one_branch (result : GenerationResult) : Prop :=
  if success result
  then generatedImage result <> None /\ poseDescription result <> None
       /\ poseData result <> None /\ error result = None
  else error result <> None /\ generatedImage result = None
       /\ poseDescription result = None /\ poseData result = None.







(** The image that a response offers to the scan of [generateImage]: the
    data of the first part of its first candidate that carries some. *)
Definition image_payload (response : GenerateContentResponse)
  : option string :=
  match candidates response with
  | Some (first :: _) =>
      match content first with
      | Some c =>
          match parts c with
          | Some ps => first_inline_data ps
          | None => None
          end
      | None => None
      end
  | _ => None
  end.

(** ** Sample operations and worlds *)

(** A clock that advances by one between two readings, and an intake that
    accepts everything, answering in order of departure. *)
Definition sample_host (key : option string) : Host :=
  mkHost (mkEnv key None None None)
         (fun n => Z.of_nat n)
         (fun _ => HttpResponse 202 "{}")
         (fun n => n).

(** An intake that refuses the first request, loses the second, accepts the
    others, and answers the later requests first. *)
Definition failing_host : Host :=
  mkHost (mkEnv (Some "dd-key") None None None)
         (fun n => Z.of_nat n)
         (fun n => match n with
                   | 0%nat => HttpResponse 500 "oops"
                   | 1%nat => HttpError "ECONNRESET"
                   | _ => HttpResponse 200 ""
                   end)
         (fun n => (10 - n)%nat).

(** An operation over a counter of its own invocations that always throws
    an error naming the attempt. *)
Definition always_failing : Z -> M nat string :=
  fun attempt calls =>
    (Throw (new_Error ("failure " +++ string_of_Z attempt)),
     Datatypes.S calls).

(** An operation that throws until attempt [k], where it returns. *)
Definition succeeds_at (k : Z) : Z -> M nat string :=
  fun attempt calls =>
    if attempt =? k
    then (Return ("done at " +++ string_of_Z attempt), Datatypes.S calls)
    else always_failing attempt calls.

Definition sample_counter_world : World nat :=
  mkWorld 0%nat [] (sample_host None).

Definition sample_user_image : ImageData := mkImageData "VVNFUg==" "image/png".
Definition sample_pose_image : ImageData := mkImageData "UE9TRQ==" "image/jpeg".

(** A pose with its seven regions described. *)
Definition sample_pose : json :=
  JObject
    [("head", JObject [("description", JString "tilted left")]);
     ("torso", JObject [("description", JString "upright")]);
     ("leftArm", JObject [("description", JString "raised")]);
     ("rightArm", JObject [("description", JString "on the hip")]);
     ("leftLeg", JObject [("description", JString "straight")]);
     ("rightLeg", JObject [("description", JString "bent")]);
     ("overall", JObject [("description", JString "balanced")])].

(** A stand-in for [JSON.parse] that knows one text. *)
Definition sample_JSON_parse (s : string) : Result json :=
  if String.eqb s "{pose}" then Return sample_pose
  else Throw (JsError "SyntaxError" "Unexpected token").

Definition sample_image_response (image later : string)
  : GenerateContentResponse :=
  mkResponse None
    (Some [mkCandidate
             (Some (mkContent
                      (Some [mkPart (Some "here is the image") None;
                             mkPart None (Some (mkBlob (Some image)
                                                       (Some "image/png")));
                             mkPart None (Some (mkBlob (Some later)
                                                       (Some "image/png")))])))]).

(** A service whose analysis endpoint returns the seven descriptions and
    whose generation endpoint returns an image. *)
Definition obliging_backend : Backend :=
  mkBackend
    (fun _ request =>
       if String.eqb (req_model request) CONFIG.POSE_ANALYSIS_MODEL
       then Responds (mkResponse (Some " {pose} ") None)
       else Responds (sample_image_response "QkFTRTY0" "TEFURVI="))
    [].

(** A service whose analysis endpoint always returns an empty text. *)
Definition mute_backend : Backend :=
  mkBackend (fun _ _ => Responds (mkResponse (Some "") None)) [].

(** A service that answers with an empty list of candidates. *)
Definition no_candidate_backend : Backend :=
  mkBackend (fun _ _ => Responds (mkResponse None (Some []))) [].

Definition sample_world (b : Backend) (key : option string) : World Backend :=
  mkWorld b [] (sample_host key).

(** ** index.ts: the callable function *)

(** [request.data]: either image may be missing at run time. *)
Record GenerateWithAIRequest : Type := mkGenerateWithAIRequest {
  request_userImage : option ImageData;
  request_poseImage : option ImageData
}.

(** [CallableRequest<GenerateWithAIRequest>]: [request.auth] holds the
    caller's uid when the caller is signed in. *)
Record CallableRequest : Type := mkCallableRequest {
  request_auth : option string;
  request_data : GenerateWithAIRequest
}.

(** What [generateWithAI] returns. *)
Record GenerateWithAIResponse : Type := mkGenerateWithAIResponse {
  response_success : bool;
  response_generatedImage : option string;
  response_poseDescription : option string
}.

(** What [generateWithAI] may throw: an [HttpsError] of its own, or a value
    thrown by what it calls. *)
Inductive Failure : Type :=
| HttpsError (code message : string)
| Uncaught (e : jsval).

Inductive CallOutcome : Type :=
| Fulfilled (response : GenerateWithAIResponse)
| Rejected (failure : Failure).

(** The world of one invocation of the function: the world of the pipeline
    and the number of times [tracer.flush] has been called. *)
Record Invocation : Type := mkInvocation {
  pipeline : World Backend;
  flushes : nat
}.

Section CallableFunction.
Variable JSON_parse : string -> Result json.
(** [geminiApiKey.value()] *)
Variable apiKey : string.
(** [tracerAny && typeof tracerAny.flush === 'function'] *)
Variable tracer_has_flush : bool.

(** Step 4 of the handler: [tracerAny.flush(() => resolve())], for a tracer
    whose [flush] calls its callback, or a wait of 100 ms. *)
Definition flush_traces (i : Invocation) : Invocation :=
  let w := console_log "[generateWithAI] Flushing Datadog traces..."
                       (pipeline i) in
  let i1 :=
    if tracer_has_flush
    then mkInvocation w (Datatypes.S (flushes i))
    else mkInvocation (sleep 100 w) (flushes i) in
  mkInvocation
    (console_log "[generateWithAI] Datadog traces flushed" (pipeline i1))
    (flushes i1).

Definition generateWithAI (request : CallableRequest) (i : Invocation)
  : CallOutcome * Invocation :=
  let w0 := console_log "[generateWithAI] Request received" (pipeline i) in
  match request_auth request with
  | None =>
      (Rejected (HttpsError "unauthenticated" "User must be logged in"),
       mkInvocation w0 (flushes i))
  | Some _ =>
      match request_userImage (request_data request),
            request_poseImage (request_data request) with
      | Some userImage, Some poseImage =>
          let w1 := console_log "[generateWithAI] Starting AI generation..."
                                w0 in
          match generateWithPose JSON_parse apiKey userImage poseImage w1 with
          | (Throw e, w2) => (Rejected (Uncaught e), mkInvocation w2 (flushes i))
          | (Return result, w2) =>
              if success result
              then
                let w3 := console_log
                            "[generateWithAI] AI generation successful" w2 in
                (Fulfilled (mkGenerateWithAIResponse
                              true (generatedImage result)
                              (poseDescription result)),
                 flush_traces (mkInvocation w3 (flushes i)))
              else
                let w3 :=
                  console ERROR "[generateWithAI] Generation failed:"
                          (Some (match error result with
                                 | Some m => JsOther m
                                 | None => JsUndefined
                                 end)) w2 in
                (Rejected (HttpsError "internal"
                                      (or_default (error result)
                                                  "Generation failed")),
                 mkInvocation w3 (flushes i))
          end
      | _, _ =>
          (Rejected (HttpsError "invalid-argument" "Missing image data"),
           mkInvocation w0 (flushes i))
      end
  end.

End CallableFunction.

(** ** Reading a run, continued *)

(** The request that every attempt of [analyzePose] sends, and the one
    that every attempt of [generateImage] sends. *)
Definition analysis_request (apiKey : string) (poseImage : ImageData)
  : GenerateContentRequest :=
  mkGenRequest apiKey CONFIG.POSE_ANALYSIS_MODEL
               [TextPart PoseAnalysisPrompt; inlinePart poseImage]
               JsonSchemaConfig.

Definition image_request (apiKey : string) (userImage poseImage : ImageData)
           (description : string) (keypoints : json)
  : GenerateContentRequest :=
  mkGenRequest apiKey CONFIG.IMAGE_GENERATION_MODEL
               [inlinePart userImage; inlinePart poseImage;
                TextPart (PoseImagePrompt description keypoints)]
               ImageModalityConfig.

(** The backend after it has been asked [reqs]. *)
Definition asked (b : Backend) (reqs : list GenerateContentRequest)
  : Backend :=
  mkBackend (respond b) (requests b ++ reqs).

(** The life of the spans: starts, tags and finishes. *)
Definition is_span_event (e : event) : bool :=
  match e with
  | EvSpanStart _ _ _ _ | EvSetTag _ _ _ | EvFinish _ => true
  | _ => false
  end.





(** The image data that a part offers to the scan, if any. *)
Definition carried (part : Part) : option string :=
  match inlineData part with
  | Some blob => if truthy (blob_data blob) then blob_data blob else None
  | None => None
  end.

(** The last value bound to [key] in a list of properties. *)
Fixpoint last_binding (key : string) (props : list (string * json))
  : option json :=
  match props with
  | [] => None
  | (k, v) :: rest =>
      match last_binding key rest with
      | Some later => Some later
      | None => if String.eqb k key then Some v else None
      end
  end.



(** The span events of a call of [generateWithPose] whose parent span is
    [p], according to how far the pipeline went. *)
Definition parent_started (p : nat) : event :=
  EvSpanStart p "llm.full_generation" None
              [("llm.provider", TagStr "google");
               ("llm.model", TagStr "gemini-pipeline");
               ("llm.request_type", TagStr "pose_transformation")].

Definition analysis_started (p : nat) : event :=
  EvSpanStart (Datatypes.S p) "llm.pose_analysis" (Some p)
              [("llm.model", TagStr CONFIG.POSE_ANALYSIS_MODEL);
               ("llm.operation", TagStr "text_generation")].

Definition generation_started (p : nat) : event :=
  EvSpanStart (Datatypes.S (Datatypes.S p)) "llm.image_generation" (Some p)
              [("llm.model", TagStr CONFIG.IMAGE_GENERATION_MODEL);
               ("llm.operation", TagStr "image_generation")].

Definition error_tags (p : nat) (errorMessage : string) : list event :=
  [EvSetTag p "llm.status" (TagStr "error");
   EvSetTag p "error" (TagBool true);
   EvSetTag p "error.message" (TagStr errorMessage)].

Definition spans_analysis_failed (p : nat) (errorMessage : string)
  : list event :=
  [parent_started p; analysis_started p]
    ++ error_tags p errorMessage ++ [EvFinish p].

Definition spans_generation_failed (p : nat) (errorMessage : string)
  : list event :=
  [parent_started p;
   analysis_started p;
   EvSetTag (Datatypes.S p) "llm.status" (TagStr "success");
   EvFinish (Datatypes.S p);
   generation_started p]
    ++ error_tags p errorMessage ++ [EvFinish p].

Definition spans_succeeded (p : nat) (latencyMs : Z) : list event :=
  [parent_started p;
   analysis_started p;
   EvSetTag (Datatypes.S p) "llm.status" (TagStr "success");
   EvFinish (Datatypes.S p);
   generation_started p;
   EvSetTag (Datatypes.S (Datatypes.S p)) "llm.status" (TagStr "success");
   EvFinish (Datatypes.S (Datatypes.S p));
   EvSetTag p "llm.status" (TagStr "success");
   EvSetTag p "llm.latency_ms" (TagNum latencyMs);
   EvFinish p].

(** A host of no importance, to run a computation whose completion does
    not depend on it. *)
Definition idle_host : Host :=
  mkHost (mkEnv None None None None) (fun _ => 0)
         (fun _ => HttpError "") (fun _ => 0%nat).

(** A service whose analysis endpoint returns a text that is not JSON. *)
Definition garbled_backend : Backend :=
  mkBackend (fun _ _ => Responds (mkResponse (Some "not json") None)) [].

Definition sample_request : CallableRequest :=
  mkCallableRequest
    (Some "uid-1")
    (mkGenerateWithAIRequest (Some sample_user_image)
                             (Some sample_pose_image)).

(** The three ways a call of [generateWithPose] can go, with what each
    leaves: the result, the requests received by the backend, the events of
    the spans, and the attempts and waits. *)
Inductive Course : Type :=
| AnalysisFailed (e : jsval)
| GenerationFailed (description : string) (keypoints : json) (sent : nat)
                   (e : jsval)
| Succeeded (description : string) (keypoints : json) (sent : nat)
            (image : string).

Definition course_result (c : Course) : GenerationResult :=
  match c with
  | AnalysisFailed e | GenerationFailed _ _ _ e => failed (errorMessageOf e)
  | Succeeded d pd _ image => succeeded image d pd
  end.

Definition course_requests (apiKey : string) (userImage poseImage : ImageData)
           (analyses : nat) (c : Course) : list GenerateContentRequest :=
  repeat (analysis_request apiKey poseImage) analyses
  ++ match c with
     | AnalysisFailed _ => []
     | GenerationFailed d pd sent _ | Succeeded d pd sent _ =>
         repeat (image_request apiKey userImage poseImage d pd) sent
     end.

Definition course_schedule (analyses : nat) (c : Course) : list event :=
  attempts_schedule "generatePoseDescription" CONFIG.RETRY_DELAY_MS analyses
  ++ match c with
     | AnalysisFailed _ => []
     | GenerationFailed _ _ sent _ | Succeeded _ _ sent _ =>
         attempts_schedule "generatePoseImage" CONFIG.RETRY_DELAY_MS sent
     end.

Definition course_spans (p : nat) (latencyMs : Z) (c : Course) : list event :=
  match c with
  | AnalysisFailed e => spans_analysis_failed p (errorMessageOf e)
  | GenerationFailed _ _ _ e => spans_generation_failed p (errorMessageOf e)
  | Succeeded _ _ _ _ => spans_succeeded p latencyMs
  end.

(** The numbers of requests that a course allows: a failed step has used
    its three attempts. *)
Definition course_bounds (analyses : nat) (c : Course) : Prop :=
  (1 <= analyses <= 3)%nat
  /\ match c with
     | AnalysisFailed _ => analyses = 3%nat
     | GenerationFailed _ _ sent _ => sent = 3%nat
     | Succeeded _ _ sent _ => (1 <= sent <= 3)%nat
     end.

Definition course_reports (h : Host) (apiKey : string) (this : LLMMetrics)
           (c : Course) (t0 t1 t2 : Z) : list HttpRequest :=
  match c with
  | Succeeded _ _ _ _ => success_requests h apiKey this t0 t1 t2
  | AnalysisFailed e | GenerationFailed _ _ _ e =>
      error_requests h apiKey this (errorMessageOf e) t0 t1 t2
  end.

(** The spans started and the spans finished, in order. *)
Definition started_spans (evs : list event) : list nat :=
  flat_map (fun e => match e with EvSpanStart id _ _ _ => [id] | _ => [] end)
           evs.

Definition finished_spans (evs : list event) : list nat :=
  flat_map (fun e => match e with EvFinish id => [id] | _ => [] end) evs.

(** What [generateWithAI] makes of a course of the pipeline. *)
Definition outcome_of_course (c : Course) : CallOutcome :=
  match c with
  | Succeeded d _ _ image =>
      Fulfilled (mkGenerateWithAIResponse true (Some image) (Some d))
  | AnalysisFailed e | GenerationFailed _ _ _ e =>
      Rejected (HttpsError "internal"
                           (or_default (Some (errorMessageOf e))
                                       "Generation failed"))
  end.

(** The wait that replaces [tracer.flush] when the tracer has none. *)
Definition flush_wait (tracer_has_flush : bool) (o : CallOutcome)
  : list event :=
  match o with
  | Fulfilled _ => if tracer_has_flush then [] else [EvSleep 100]
  | Rejected _ => []
  end.

(** The calls of [tracer.flush] that an outcome stands for. *)
Definition flush_calls (tracer_has_flush : bool) (o : CallOutcome) : nat :=
  match o with
  | Fulfilled _ => if tracer_has_flush then 1 else 0
  | Rejected _ => 0
  end.

(** A request that passes the two checks of the handler. *)
Definition well_formed (request : CallableRequest) : bool :=
  match request_auth request, request_userImage (request_data request),
        request_poseImage (request_data request) with
  | Some _, Some _, Some _ => true
  | _, _, _ => false
  end.

(** * Properties *)

(** ** Sample runs *)

Example trim_sample : trim (nl +++ "  a b  " +++ nl +++ "   ") = "a b".
Proof. reflexivity. Qed.

Example retry_trace_sample :
  trace (snd (retryOperation always_failing "demo" 2 2000
                             sample_counter_world))
  = [EvCall "demo" 1;
     EvConsole WARN "[demo] Attempt 1 failed:"
               (Some (JsError "Error" "failure 1"));
     EvConsole LOG "[demo] Retrying in 2000ms..." None;
     EvSleep 2000;
     EvConsole LOG "[demo] Attempt 2/2 started..." None;
     EvCall "demo" 2;
     EvConsole WARN "[demo] Attempt 2 failed:"
               (Some (JsError "Error" "failure 2"));
     EvConsole ERROR "[demo] All 2 attempts failed." None].
Proof. reflexivity. Qed.

Example retry_return_sample :
  fst (retryOperation (succeeds_at 2) "demo" 3 2000 sample_counter_world)
  = Return "done at 2"
  /\ ext (snd (retryOperation (succeeds_at 2) "demo" 3 2000
                              sample_counter_world)) = 2%nat.
Proof. split; reflexivity. Qed.

(** Three deliveries that fail or succeed independently, completing in the
    reverse of their order of departure. *)
Example report_lines_sample :
  filter is_console
         (trace (snd (recordSuccess
                        (mkLLMMetrics 0 "full_generation" "gemini-pipeline")
                        (mkWorld tt [] failing_host))))
  = [EvConsole LOG
       "[Datadog API] Log sent: LLM generation completed: full_generation..."
       None;
     EvConsole ERROR "[Datadog API] Request error: ECONNRESET" None;
     EvConsole ERROR "[Datadog API] Error: 500 - oops" None].
Proof. reflexivity. Qed.

Example first_image_sample :
  image_payload (sample_image_response "QkFTRTY0" "TEFURVI=")
  = Some "QkFTRTY0".
Proof. reflexivity. Qed.

(** ** The retry loop *)

Section RetryFacts.
Context {S T : Type}.
Variable operation : Z -> M S T.
Variable name : string.
Variable maxAttempts delayMs : Z.

Lemma retry_loop_exit attempt lastError w :
  maxAttempts < attempt ->
  retry_loop operation name maxAttempts delayMs attempt lastError w
  = attempts_exhausted name maxAttempts lastError w.
Proof.
  intros Hgt. simp retry_loop.
  destruct (Z_le_gt_dec attempt maxAttempts) as [Hle | Hgt']; [lia |].
  reflexivity.
Qed.

Lemma retry_loop_step attempt lastError w :
  attempt <= maxAttempts ->
  retry_loop operation name maxAttempts delayMs attempt lastError w =
  match attempt_body operation name maxAttempts attempt w with
  | (Return v, w1) => (Return v, w1)
  | (Throw error, w1) =>
      retry_loop operation name maxAttempts delayMs (attempt + 1) error
                 (attempt_failed name maxAttempts delayMs attempt error w1)
  end.
Proof.
  intros Hle. simp retry_loop.
  destruct (Z_le_gt_dec attempt maxAttempts) as [Hle' | Hgt]; [| lia].
  unfold retry_loop_unfold_clause_1.
  destruct (attempt_body operation name maxAttempts attempt w)
    as [[v | error] w1]; reflexivity.
Qed.

Lemma attempt_body_run attempt s tr h :
  attempt_body operation name maxAttempts attempt (mkWorld s tr h)
  = (fst (operation attempt s),
     mkWorld (snd (operation attempt s))
             (tr ++ started_events name maxAttempts attempt) h).
Proof.
  unfold attempt_body, started_events.
  destruct (1 <? attempt);
    cbv [bind exec on_ext emit console_log console ext trace host];
    destruct (operation attempt s) as [r s']; cbn [fst snd app];
    rewrite <- ?app_assoc; reflexivity.
Qed.

Lemma attempt_failed_run attempt error (s : S) tr h :
  attempt_failed name maxAttempts delayMs attempt error (mkWorld s tr h)
  = mkWorld s (tr ++ failed_events name maxAttempts delayMs attempt error) h.
Proof.
  unfold attempt_failed, failed_events.
  destruct (attempt <? maxAttempts);
    cbv [sleep emit console_log console ext trace host];
    rewrite <- ?app_assoc; reflexivity.
Qed.

Lemma attempts_exhausted_run lastError (s : S) tr h :
  @attempts_exhausted S T name maxAttempts lastError (mkWorld s tr h)
  = (Throw lastError,
     mkWorld s (tr ++ [EvConsole ERROR
                         ("[" +++ name +++ "] All "
                            +++ string_of_Z maxAttempts
                            +++ " attempts failed.") None]) h).
Proof. reflexivity. Qed.

Lemma schedule_of_iteration attempt error :
  filter is_call_or_sleep
         (started_events name maxAttempts attempt
            ++ failed_events name maxAttempts delayMs attempt error)
  = EvCall name attempt
    :: (if attempt <? maxAttempts then [EvSleep delayMs] else []).
Proof.
  unfold started_events, failed_events.
  destruct (1 <? attempt), (attempt <? maxAttempts); reflexivity.
Qed.

Lemma schedule_of_started attempt :
  filter is_call_or_sleep (started_events name maxAttempts attempt)
  = [EvCall name attempt].
Proof.
  unfold started_events. destruct (1 <? attempt); reflexivity.
Qed.

Lemma state_after_succ k s :
  state_after operation (Datatypes.S k) s
  = snd (operation (Z.of_nat (Datatypes.S k)) (state_after operation k s)).
Proof. reflexivity. Qed.

(** A run of failed attempts, none of them the last one allowed: the loop
    goes from attempt [a] to attempt [a + j], sleeping after each. *)
Lemma retry_loop_failures (j : nat) :
  forall (a : nat) e s0 tr h,
    (1 <= a)%nat ->
    Z.of_nat (a + j) <= maxAttempts ->
    (forall k, (a <= k < a + j)%nat ->
               is_throw (outcome_of_attempt operation k s0) = true) ->
    exists e' evs,
      retry_loop operation name maxAttempts delayMs (Z.of_nat a) e
                 (mkWorld (state_after operation (a - 1) s0) tr h)
      = retry_loop operation name maxAttempts delayMs (Z.of_nat (a + j)) e'
                   (mkWorld (state_after operation (a + j - 1) s0)
                            (tr ++ evs) h)
      /\ filter is_call_or_sleep evs
         = flat_map (fun k => [EvCall name (Z.of_nat k); EvSleep delayMs])
                    (seq a j)
      /\ (j = 0%nat -> e' = e)
      /\ ((0 < j)%nat ->
          outcome_of_attempt operation (a + j - 1) s0 = Throw e').
Proof.
  induction j as [| j IH]; intros a e s0 tr h Ha Hle Hfail.
  - exists e, []. rewrite Nat.add_0_r, app_nil_r.
    split; [reflexivity |]. split; [reflexivity |].
    split; [reflexivity | lia].
  - assert (Hthrow : is_throw (outcome_of_attempt operation a s0) = true)
      by (apply Hfail; lia).
    rewrite retry_loop_step by lia.
    rewrite attempt_body_run.
    unfold outcome_of_attempt in Hthrow.
    destruct (fst (operation (Z.of_nat a) (state_after operation (a - 1) s0)))
      as [v | err] eqn:Hout; [discriminate |].
    rewrite attempt_failed_run, <- app_assoc.
    assert (Hnext : snd (operation (Z.of_nat a)
                           (state_after operation (a - 1) s0))
                    = state_after operation (Datatypes.S a - 1) s0).
    { replace (Datatypes.S a - 1)%nat with (Datatypes.S (a - 1)) by lia.
      rewrite state_after_succ.
      replace (Datatypes.S (a - 1)) with a by lia. reflexivity. }
    rewrite Hnext.
    replace (Z.of_nat a + 1) with (Z.of_nat (Datatypes.S a)) by lia.
    destruct (IH (Datatypes.S a) err s0
                 (tr ++ started_events name maxAttempts (Z.of_nat a)
                     ++ failed_events name maxAttempts delayMs
                          (Z.of_nat a) err) h)
      as (e' & evs & Hrun & Hsched & He0 & Hlast).
    + lia.
    + replace (Datatypes.S a + j)%nat with (a + Datatypes.S j)%nat by lia.
      exact Hle.
    + intros k Hk. apply Hfail. lia.
    + exists e', ((started_events name maxAttempts (Z.of_nat a)
                     ++ failed_events name maxAttempts delayMs
                          (Z.of_nat a) err) ++ evs).
      replace (a + Datatypes.S j)%nat with (Datatypes.S a + j)%nat by lia.
      rewrite Hrun, <- !app_assoc.
      split; [reflexivity |].
      split.
      * rewrite app_assoc, filter_app, schedule_of_iteration, Hsched.
        assert (Hlt : (Z.of_nat a <? maxAttempts) = true)
          by (apply Z.ltb_lt; lia).
        rewrite Hlt. reflexivity.
      * split; [discriminate |].
        intros _. destruct j as [| j'].
        -- rewrite (He0 eq_refl).
           replace (Datatypes.S a + 0 - 1)%nat with a by lia.
           unfold outcome_of_attempt. exact Hout.
        -- apply Hlast. lia.
Qed.

Lemma retry_events_started attempt :
  forallb (is_retry_event name) (started_events name maxAttempts attempt)
  = true.
Proof.
  unfold started_events.
  destruct (1 <? attempt); cbn [app forallb is_retry_event];
    rewrite String.eqb_refl; reflexivity.
Qed.

Lemma retry_events_failed attempt error :
  forallb (is_retry_event name)
          (failed_events name maxAttempts delayMs attempt error) = true.
Proof.
  unfold failed_events. destruct (attempt <? maxAttempts); reflexivity.
Qed.

(** Any run of the loop: its completion and what it does to the operation's
    world are the same whatever the trace and the host, the trace only
    grows, by events of the wrapper, and a relation [R] that every
    invocation of the operation respects holds between the two ends. *)
Section Frame.
Variable R : S -> S -> Prop.
Hypothesis R_refl : forall s, R s s.
Hypothesis R_trans : forall s1 s2 s3, R s1 s2 -> R s2 s3 -> R s1 s3.
Hypothesis R_step : forall a s, R s (snd (operation a s)).

Lemma retry_loop_run (m : nat) :
  forall attempt lastError s,
    (Z.to_nat (maxAttempts + 1 - attempt) <= m)%nat ->
    exists r s' evs,
      (forall tr h,
          retry_loop operation name maxAttempts delayMs attempt lastError
                     (mkWorld s tr h)
          = (r, mkWorld s' (tr ++ evs) h))
      /\ forallb (is_retry_event name) evs = true
      /\ R s s'.
Proof.
  induction m as [| m IH]; intros attempt lastError s Hm.
  - eexists _, s, _. split; [| split; [| apply R_refl]].
    + intros tr h. rewrite retry_loop_exit by lia.
      rewrite attempts_exhausted_run. reflexivity.
    + reflexivity.
  - destruct (Z_le_gt_dec attempt maxAttempts) as [Hle | Hgt].
    + destruct (fst (operation attempt s)) as [v | err] eqn:Hout.
      * eexists (Return v), (snd (operation attempt s)), _.
        split; [| split; [apply retry_events_started | apply R_step]].
        intros tr h. rewrite retry_loop_step by lia.
        rewrite attempt_body_run, Hout. reflexivity.
      * destruct (IH (attempt + 1) err (snd (operation attempt s)))
          as (r & s' & evs & Hrun & Hevs & HR); [lia |].
        exists r, s',
          ((started_events name maxAttempts attempt
              ++ failed_events name maxAttempts delayMs attempt err) ++ evs).
        split; [| split].
        -- intros tr h. rewrite retry_loop_step by lia.
           rewrite attempt_body_run, Hout, attempt_failed_run.
           rewrite Hrun, <- !app_assoc. reflexivity.
        -- rewrite !forallb_app, retry_events_started, retry_events_failed.
           exact Hevs.
        -- eapply R_trans; [apply R_step | exact HR].
    + eexists _, s, _. split; [| split; [| apply R_refl]].
      * intros tr h. rewrite retry_loop_exit by lia.
        rewrite attempts_exhausted_run. reflexivity.
      * reflexivity.
Qed.

Lemma retryOperation_run (s : S) :
  exists r s' evs,
    (forall tr h,
        retryOperation operation name maxAttempts delayMs (mkWorld s tr h)
        = (r, mkWorld s' (tr ++ evs) h))
    /\ forallb (is_retry_event name) evs = true
    /\ R s s'.
Proof.
  unfold retryOperation.
  apply (retry_loop_run (Z.to_nat (maxAttempts + 1 - 1))). lia.
Qed.
End Frame.
End RetryFacts.

Lemma filter_implied {A} (p q : A -> bool) (l : list A) :
  (forall x, p x = true -> q x = true) ->
  filter p (filter q l) = filter p l.
Proof.
  intros Himp. induction l as [| x l IH]; [reflexivity |].
  cbn [filter]. destruct (q x) eqn:Hq, (p x) eqn:Hp; cbn [filter];
    rewrite ?Hp, ?IH; try reflexivity.
  apply Himp in Hp. congruence.
Qed.

Lemma calls_of_schedule name delayMs (j : nat) :
  forall a,
    List.length
      (filter is_call
              (flat_map (fun k => [EvCall name (Z.of_nat k); EvSleep delayMs])
                        (seq a j))) = j
    /\ List.length
         (filter is_sleep
                 (flat_map (fun k => [EvCall name (Z.of_nat k);
                                      EvSleep delayMs])
                           (seq a j))) = j.
Proof.
  induction j as [| j IH]; intros a; [split; reflexivity |].
  destruct (IH (Datatypes.S a)) as [Hc Hs].
  cbn [seq flat_map app filter is_call is_sleep List.length].
  rewrite Hc, Hs. split; reflexivity.
Qed.

Lemma schedule_counts name delayMs (n : nat) (evs : list event) :
  filter is_call_or_sleep evs = attempts_schedule name delayMs n ->
  count_events is_call evs = (n - 1 + 1)%nat
  /\ count_events is_sleep evs = (n - 1)%nat.
Proof.
  intros Hsched. unfold count_events.
  rewrite <- (filter_implied is_call is_call_or_sleep evs)
    by (intros [] Hx; (discriminate || reflexivity)).
  rewrite <- (filter_implied is_sleep is_call_or_sleep evs)
    by (intros [] Hx; (discriminate || reflexivity)).
  rewrite Hsched. unfold attempts_schedule.
  rewrite !filter_app, !length_app.
  destruct (calls_of_schedule name delayMs (n - 1) 1%nat) as [Hc Hs].
  rewrite Hc, Hs. cbn. lia.
Qed.

(** Exhaustion: [n >= 1] attempts allowed, all of them failing. *)
Lemma retry_exhausts :
  forall {S T : Type} (operation : Z -> M S T) (name : string) (n : nat)
         (delayMs : Z) (w : World S),
    (1 <= n)%nat ->
    (forall k, (1 <= k <= n)%nat ->
               is_throw (outcome_of_attempt operation k (ext w)) = true) ->
    exists e w' evs,
      retryOperation operation name (Z.of_nat n) delayMs w = (Throw e, w')
      /\ outcome_of_attempt operation n (ext w) = Throw e
      /\ ext w' = state_after operation n (ext w)
      /\ trace w' = trace w ++ evs
      /\ filter is_call_or_sleep evs = attempts_schedule name delayMs n.
Proof.
  intros S T operation name n delayMs [s tr h] Hn Hfail. cbn [ext trace] in *.
  destruct (retry_loop_failures operation name (Z.of_nat n) delayMs (n - 1)
              1%nat JsUndefined s tr h) as (e0 & evs & Hrun & Hsched & _ & _).
  { lia. } { lia. } { intros k Hk. apply Hfail. lia. }
  assert (Hthrow : is_throw (outcome_of_attempt operation n s) = true)
    by (apply Hfail; lia).
  unfold outcome_of_attempt in Hthrow.
  destruct (fst (operation (Z.of_nat n) (state_after operation (n - 1) s)))
    as [v | err] eqn:Hout; [discriminate |].
  set (last := started_events name (Z.of_nat n) (Z.of_nat n)
                 ++ failed_events name (Z.of_nat n) delayMs (Z.of_nat n) err
                 ++ [EvConsole ERROR
                       ("[" +++ name +++ "] All "
                          +++ string_of_Z (Z.of_nat n)
                          +++ " attempts failed.") None]).
  assert (Hall : filter is_call_or_sleep (evs ++ last)
                 = attempts_schedule name delayMs n).
  { unfold last, attempts_schedule.
    rewrite filter_app, Hsched, app_assoc, filter_app, schedule_of_iteration.
    rewrite Z.ltb_irrefl. reflexivity. }
  exists err,
    (mkWorld (state_after operation n s) (tr ++ evs ++ last) h), (evs ++ last).
  split.
  { unfold retryOperation.
    change (Z.of_nat 1) with 1 in Hrun.
    change (state_after operation (1 - 1) s) with s in Hrun.
    rewrite Hrun.
    replace (1 + (n - 1))%nat with n by lia.
    rewrite retry_loop_step by lia.
    rewrite attempt_body_run, Hout, attempt_failed_run.
    rewrite retry_loop_exit by lia.
    rewrite attempts_exhausted_run, <- !app_assoc.
    replace (state_after operation n s)
      with (snd (operation (Z.of_nat n) (state_after operation (n - 1) s))).
    - reflexivity.
    - replace n with (Datatypes.S (n - 1)) at 3 by lia.
      rewrite state_after_succ.
      replace (Datatypes.S (n - 1)) with n by lia. reflexivity. }
  split; [exact Hout |].
  split; [reflexivity |]. split; [reflexivity | exact Hall].
Qed.


(** C1: an operation that fails on each of the [n >= 1] attempts allowed is
    invoked exactly [n] times, with attempt numbers [1] to [n]; the fixed
    delay is awaited after each failed attempt but the last, so [n - 1]
    times and never after attempt [n]; the call then throws the very value
    thrown by attempt [n]. *)
Theorem retryOperation_all_attempts_fail :
  forall {S T : Type} (operation : Z -> M S T) (name : string) (n : nat)
         (delayMs : Z) (w : World S),
    (1 <= n)%nat ->
    (forall k, (1 <= k <= n)%nat ->
               is_throw (outcome_of_attempt operation k (ext w)) = true) ->
    exists e w' evs,
      retryOperation operation name (Z.of_nat n) delayMs w = (Throw e, w')
      /\ outcome_of_attempt operation n (ext w) = Throw e
      /\ ext w' = state_after operation n (ext w)
      /\ trace w' = trace w ++ evs
      /\ filter is_call_or_sleep evs = attempts_schedule name delayMs n
      /\ count_events is_call evs = n
      /\ count_events is_sleep evs = (n - 1)%nat.
Proof.
  intros S T operation name n delayMs w Hn Hfail.
  destruct (retry_exhausts operation name n delayMs w Hn Hfail)
    as (e & w' & evs & Hrun & Hlast & Hext & Htrace & Hsched).
  destruct (schedule_counts name delayMs n evs Hsched) as [Hcalls Hsleeps].
  exists e, w', evs.
  split; [exact Hrun |]. split; [exact Hlast |]. split; [exact Hext |].
  split; [exact Htrace |]. split; [exact Hsched |].
  split; [| exact Hsleeps].
  rewrite Hcalls. lia.
Qed.

Lemma retryOperation_all_attempts_fail_witness :
  (1 <= 3)%nat
  /\ (forall k, (1 <= k <= 3)%nat ->
                is_throw (outcome_of_attempt always_failing k
                            (ext sample_counter_world)) = true)
  /\ exists e w' evs,
      retryOperation always_failing "demo" (Z.of_nat 3) 2000
                     sample_counter_world = (Throw e, w')
      /\ outcome_of_attempt always_failing 3 (ext sample_counter_world)
         = Throw e
      /\ ext w' = state_after always_failing 3 (ext sample_counter_world)
      /\ trace w' = trace sample_counter_world ++ evs
      /\ filter is_call_or_sleep evs = attempts_schedule "demo" 2000 3
      /\ count_events is_call evs = 3%nat
      /\ count_events is_sleep evs = (3 - 1)%nat.
Proof.
  split; [lia |].
  split; [intros k Hk; reflexivity |].
  apply (retryOperation_all_attempts_fail always_failing "demo" 3 2000
           sample_counter_world); [lia | intros k Hk; reflexivity].
Defined.

(** First return at attempt [k], within the attempts allowed. *)
Lemma retry_first_return :
  forall {S T : Type} (operation : Z -> M S T) (name : string)
         (maxAttempts delayMs : Z) (w : World S) (k : nat) (v : T),
    (1 <= k)%nat ->
    Z.of_nat k <= maxAttempts ->
    (forall j, (1 <= j < k)%nat ->
               is_throw (outcome_of_attempt operation j (ext w)) = true) ->
    outcome_of_attempt operation k (ext w) = Return v ->
    exists w' evs,
      retryOperation operation name maxAttempts delayMs w = (Return v, w')
      /\ ext w' = state_after operation k (ext w)
      /\ trace w' = trace w ++ evs
      /\ filter is_call_or_sleep evs = attempts_schedule name delayMs k.
Proof.
  intros S T operation name maxAttempts delayMs [s tr h] k v Hk Hle Hfail Hok.
  cbn [ext trace] in *.
  destruct (retry_loop_failures operation name maxAttempts delayMs (k - 1)
              1%nat JsUndefined s tr h) as (e0 & evs & Hrun & Hsched & _ & _).
  { lia. } { lia. } { intros j Hj. apply Hfail. lia. }
  unfold outcome_of_attempt in Hok.
  set (last := started_events name maxAttempts (Z.of_nat k)).
  assert (Hall : filter is_call_or_sleep (evs ++ last)
                 = attempts_schedule name delayMs k).
  { unfold last, attempts_schedule.
    rewrite filter_app, Hsched, schedule_of_started. reflexivity. }
  exists (mkWorld (state_after operation k s) (tr ++ evs ++ last) h),
    (evs ++ last).
  split.
  { unfold retryOperation.
    change (Z.of_nat 1) with 1 in Hrun.
    change (state_after operation (1 - 1) s) with s in Hrun.
    rewrite Hrun.
    replace (1 + (k - 1))%nat with k by lia.
    rewrite retry_loop_step by lia.
    rewrite attempt_body_run, Hok, <- !app_assoc.
    replace (state_after operation k s)
      with (snd (operation (Z.of_nat k) (state_after operation (k - 1) s))).
    - reflexivity.
    - replace k with (Datatypes.S (k - 1)) at 3 by lia.
      rewrite state_after_succ.
      replace (Datatypes.S (k - 1)) with k by lia. reflexivity. }
  split; [reflexivity |]. split; [reflexivity | exact Hall].
Qed.

(** C2: an operation that fails on attempts [1] to [k - 1] and returns on
    attempt [k], with [k] within the attempts allowed, is invoked exactly
    [k] times, with attempt numbers [1] to [k] and a delay between
    consecutive attempts; the call returns the result of attempt [k]. *)
Theorem retryOperation_first_success :
  forall {S T : Type} (operation : Z -> M S T) (name : string)
         (maxAttempts delayMs : Z) (w : World S) (k : nat) (v : T),
    (1 <= k)%nat ->
    Z.of_nat k <= maxAttempts ->
    (forall j, (1 <= j < k)%nat ->
               is_throw (outcome_of_attempt operation j (ext w)) = true) ->
    outcome_of_attempt operation k (ext w) = Return v ->
    exists w' evs,
      retryOperation operation name maxAttempts delayMs w = (Return v, w')
      /\ ext w' = state_after operation k (ext w)
      /\ trace w' = trace w ++ evs
      /\ filter is_call_or_sleep evs = attempts_schedule name delayMs k
      /\ count_events is_call evs = k
      /\ count_events is_sleep evs = (k - 1)%nat.
Proof.
  intros S T operation name maxAttempts delayMs w k v Hk Hle Hfail Hok.
  destruct (retry_first_return operation name maxAttempts delayMs w k v
              Hk Hle Hfail Hok)
    as (w' & evs & Hrun & Hext & Htrace & Hsched).
  destruct (schedule_counts name delayMs k evs Hsched) as [Hcalls Hsleeps].
  exists w', evs.
  split; [exact Hrun |]. split; [exact Hext |]. split; [exact Htrace |].
  split; [exact Hsched |]. split; [| exact Hsleeps].
  rewrite Hcalls. lia.
Qed.

Lemma retryOperation_first_success_witness :
  (1 <= 2)%nat
  /\ Z.of_nat 2 <= 3
  /\ (forall j, (1 <= j < 2)%nat ->
                is_throw (outcome_of_attempt (succeeds_at 2) j
                            (ext sample_counter_world)) = true)
  /\ outcome_of_attempt (succeeds_at 2) 2 (ext sample_counter_world)
     = Return "done at 2"
  /\ exists w' evs,
      retryOperation (succeeds_at 2) "demo" 3 2000 sample_counter_world
      = (Return "done at 2", w')
      /\ ext w' = state_after (succeeds_at 2) 2 (ext sample_counter_world)
      /\ trace w' = trace sample_counter_world ++ evs
      /\ filter is_call_or_sleep evs = attempts_schedule "demo" 2000 2
      /\ count_events is_call evs = 2%nat
      /\ count_events is_sleep evs = (2 - 1)%nat.
Proof.
  assert (Hfail : forall j, (1 <= j < 2)%nat ->
                            is_throw (outcome_of_attempt (succeeds_at 2) j
                                        (ext sample_counter_world)) = true).
  { intros j Hj. assert (j = 1%nat) as -> by lia. reflexivity. }
  split; [lia |]. split; [lia |]. split; [exact Hfail |].
  split; [reflexivity |].
  apply (retryOperation_first_success (succeeds_at 2) "demo" 3 2000
           sample_counter_world 2 "done at 2");
    [lia | lia | exact Hfail | reflexivity].
Defined.

(** C9: with [maxAttempts <= 0] the loop body never runs: the operation is
    not invoked (no call is traced and its world is untouched), the
    exhaustion message is logged and the call throws [undefined], the
    initial value of [lastError]. *)
Theorem retryOperation_no_attempt_allowed :
  forall {S T : Type} (operation : Z -> M S T) (name : string)
         (maxAttempts delayMs : Z) (w : World S),
    maxAttempts <= 0 ->
    retryOperation operation name maxAttempts delayMs w
    = (Throw JsUndefined,
       mkWorld (ext w)
               (trace w ++ [EvConsole ERROR
                              ("[" +++ name +++ "] All "
                                 +++ string_of_Z maxAttempts
                                 +++ " attempts failed.") None])
               (host w)).
Proof.
  intros S T operation name maxAttempts delayMs [s tr h] Hle.
  unfold retryOperation. rewrite retry_loop_exit by lia.
  apply attempts_exhausted_run.
Qed.

Lemma retryOperation_no_attempt_allowed_witness :
  0 <= 0
  /\ retryOperation (succeeds_at 1) "demo" 0 2000 sample_counter_world
     = (Throw JsUndefined,
        mkWorld 0%nat [EvConsole ERROR "[demo] All 0 attempts failed." None]
                (sample_host None)).
Proof.
  split; [lia |].
  apply (retryOperation_no_attempt_allowed (succeeds_at 1) "demo" 0 2000
           sample_counter_world); lia.
Defined.

(** ** The direct-report path *)

Section ReportFacts.
Context {S : Type}.

Lemma metric_settled_logs metricName value o (w : World S) :
  exists msg,
    metric_settled metricName value o w
    = (Return tt,
       console (if metric_delivered o then LOG else ERROR) msg None w).
Proof.
  destruct o as [statusCode responseBody | errorMessage];
    cbn [metric_settled metric_delivered].
  - destruct (statusCode =? 202); eexists; reflexivity.
  - eexists; reflexivity.
Qed.

Lemma log_settled_logs message o (w : World S) :
  exists msg,
    log_settled message o w
    = (Return tt, console (if log_delivered o then LOG else ERROR) msg None w).
Proof.
  destruct o as [statusCode responseBody | errorMessage];
    cbn [log_settled log_delivered].
  - destruct ((statusCode =? 200) || (statusCode =? 202));
      eexists; reflexivity.
  - eexists; reflexivity.
Qed.

Lemma key_cases (h : Host) :
  (key_present h = true /\ exists c rest, DD_API_KEY h = Some (String c rest))
  \/ (key_present h = false
      /\ (DD_API_KEY h = None \/ DD_API_KEY h = Some EmptyString)).
Proof.
  unfold key_present.
  destruct (DD_API_KEY h) as [[| c rest] |]; cbn [truthy].
  - right. split; [reflexivity | right; reflexivity].
  - left. split; [reflexivity | exists c, rest; reflexivity].
  - right. split; [reflexivity | left; reflexivity].
Qed.

Lemma sendMetric_without_key metricName value tags metricType (s : S) tr h :
  key_present h = false ->
  sendMetric metricName value tags metricType (mkWorld s tr h)
  = (Settled (Return tt),
     mkWorld s (tr ++ [EvConsole LOG "[Datadog API] No API key, skipping metric"
                                 None]) h).
Proof.
  intros Hkey. destruct (key_cases h) as [[Hp _] | [_ [Hk | Hk]]];
    [congruence | |]; unfold sendMetric; cbn [host]; rewrite Hk; reflexivity.
Qed.

Lemma sendLog_without_key message level additionalData (s : S) tr h :
  key_present h = false ->
  sendLog message level additionalData (mkWorld s tr h)
  = (Settled (Return tt),
     mkWorld s (tr ++ [EvConsole LOG "[Datadog API] No API key, skipping log"
                                 None]) h).
Proof.
  intros Hkey. destruct (key_cases h) as [[Hp _] | [_ [Hk | Hk]]];
    [congruence | |]; unfold sendLog; cbn [host]; rewrite Hk; reflexivity.
Qed.

Lemma sendMetric_with_key metricName value tags metricType (s : S) tr h
      apiKey :
  DD_API_KEY h = Some apiKey -> key_present h = true ->
  sendMetric metricName value tags metricType (mkWorld s tr h)
  = (Pending (count_events is_http
                           (tr ++ [EvDateNow
                                     (clock h (count_events is_date_now tr))]))
             (metric_settled metricName value),
     mkWorld s
             (tr ++ [EvDateNow (clock h (count_events is_date_now tr));
                     EvHttp (metric_request h apiKey metricName value tags
                               metricType
                               (clock h (count_events is_date_now tr)))])
             h).
Proof.
  intros Hk Hp. unfold key_present in Hp. rewrite Hk in Hp.
  destruct apiKey as [| c rest]; [discriminate |].
  unfold sendMetric. cbn [host]. rewrite Hk.
  cbv [Date_now https_request emit ext trace host].
  rewrite <- app_assoc. reflexivity.
Qed.

Lemma sendLog_with_key message level additionalData (s : S) tr h apiKey :
  DD_API_KEY h = Some apiKey -> key_present h = true ->
  sendLog message level additionalData (mkWorld s tr h)
  = (Pending (count_events is_http tr) (log_settled message),
     mkWorld s
             (tr ++ [EvHttp (log_request h apiKey message level
                               additionalData)])
             h).
Proof.
  intros Hk Hp. unfold key_present in Hp. rewrite Hk in Hp.
  destruct apiKey as [| c rest]; [discriminate |].
  unfold sendLog. cbn [host]. rewrite Hk. reflexivity.
Qed.

(** *** [Promise.all] over promises that only log *)

Lemma insert_by_arrival_perm {A} h (c : @Completion S A) sorted :
  Permutation (insert_by_arrival h c sorted) (c :: sorted).
Proof.
  induction sorted as [| d rest IH]; cbn [insert_by_arrival].
  - apply Permutation_refl.
  - destruct (arrival h (fst c) <=? arrival h (fst d))%nat.
    + apply Permutation_refl.
    + eapply Permutation_trans; [apply perm_skip, IH | apply perm_swap].
Qed.

Lemma completion_order_perm {A} h (cs : list (@Completion S A)) :
  Permutation (completion_order h cs) cs.
Proof.
  induction cs as [| c cs IH]; cbn [completion_order fold_right].
  - apply Permutation_refl.
  - eapply Permutation_trans; [apply insert_by_arrival_perm |].
    apply perm_skip, IH.
Qed.

Lemma run_completions_quiet (cs : list (@Completion S unit)) :
  Forall (fun c => quiet_callback (snd c)) cs ->
  forall (s : S) tr h,
  exists logs,
    run_completions cs (mkWorld s tr h)
    = (map (fun _ => Return tt) cs, mkWorld s (tr ++ logs) h)
    /\ forallb is_console logs = true
    /\ List.length logs = List.length cs.
Proof.
  induction 1 as [| [id k] cs Hk _ IH]; intros s tr h.
  - exists []. rewrite app_nil_r. repeat split.
  - cbn [run_completions host].
    destruct (Hk (network h id) (mkWorld s tr h)) as (lvl & msg & Hrun).
    cbn [snd] in Hrun. rewrite Hrun.
    change (console lvl msg None (mkWorld s tr h))
      with (mkWorld s (tr ++ [EvConsole lvl msg None]) h).
    destruct (IH s (tr ++ [EvConsole lvl msg None]) h)
      as (logs & Hrest & Hcls & Hlen).
    rewrite Hrest. exists (EvConsole lvl msg None :: logs).
    rewrite <- app_assoc. cbn [map app forallb is_console List.length andb].
    repeat split; [exact Hcls | now rewrite Hlen].
Qed.

Lemma pending_of_quiet (ps : list (@Promise S unit)) :
  Forall quiet ps ->
  Forall (fun c => quiet_callback (snd c)) (pending_of ps).
Proof.
  induction 1 as [| [r | id k] ps Hp _ IH]; cbn [pending_of].
  - constructor.
  - exact IH.
  - constructor; [exact Hp | exact IH].
Qed.

Lemma no_rejection {B} (ps : list (@Promise S unit)) (later : list B) :
  Forall quiet ps ->
  find is_throw (settled_of ps ++ map (fun _ => Return tt) later) = None.
Proof.
  induction 1 as [| [r | id k] ps Hp _ IH]; cbn [settled_of app].
  - induction later as [| x later IHl]; [reflexivity | exact IHl].
  - cbn in Hp. subst r. exact IH.
  - exact IH.
Qed.

Lemma Promise_all_quiet (ps : list (@Promise S unit)) :
  Forall quiet ps ->
  forall (s : S) tr h,
  exists logs,
    Promise_all ps (mkWorld s tr h)
    = (Return tt, mkWorld s (tr ++ logs) h)
    /\ forallb is_console logs = true
    /\ List.length logs = List.length (pending_of ps).
Proof.
  intros Hq s tr h. unfold Promise_all. cbn [host].
  assert (Hcs : Forall (fun c => quiet_callback (snd c))
                       (completion_order h (pending_of ps))).
  { eapply Permutation_Forall;
      [apply Permutation_sym, completion_order_perm |].
    apply pending_of_quiet, Hq. }
  destruct (run_completions_quiet _ Hcs s tr h) as (logs & Hrun & Hcls & Hlen).
  rewrite Hrun, (no_rejection ps _ Hq).
  exists logs. repeat split; [exact Hcls |].
  rewrite Hlen. apply Permutation_length, completion_order_perm.
Qed.

Lemma metric_settled_quiet metricName value :
  @quiet_callback S (metric_settled metricName value).
Proof.
  intros o w. destruct (metric_settled_logs metricName value o w) as [msg H].
  eexists _, msg. exact H.
Qed.

Lemma log_settled_quiet message : @quiet_callback S (log_settled message).
Proof.
  intros o w. destruct (log_settled_logs message o w) as [msg H].
  eexists _, msg. exact H.
Qed.

Lemma delivery_of_console logs :
  forallb is_console logs = true ->
  forallb is_delivery_event logs = true /\ http_requests logs = [].
Proof.
  induction logs as [| e logs IH]; [split; reflexivity |].
  cbn [forallb]. intros H. apply andb_prop in H as [He Hl].
  destruct (IH Hl) as [IH1 IH2].
  destruct e; try discriminate. cbn. split; assumption.
Qed.

Lemma filter_all {A} (p : A -> bool) (l : list A) :
  forallb p l = true -> filter p l = l.
Proof.
  induction l as [| x l IH]; [reflexivity |].
  cbn [forallb filter]. intros H. apply andb_prop in H as [Hx Hl].
  rewrite Hx, (IH Hl). reflexivity.
Qed.

Lemma http_requests_app evs1 evs2 :
  http_requests (evs1 ++ evs2) = http_requests evs1 ++ http_requests evs2.
Proof. apply flat_map_app. Qed.

Lemma Promise_all_settled (w : World S) :
  Promise_all [Settled (Return tt); Settled (Return tt); Settled (Return tt)]
              w
  = (Return tt, w).
Proof. reflexivity. Qed.

Lemma recordSuccess_without_key this (s : S) tr h :
  key_present h = false ->
  recordSuccess this (mkWorld s tr h)
  = (Return tt,
     mkWorld s
       (tr ++ [EvReport ReportSuccess;
               EvDateNow (clock h (count_events is_date_now
                                     (tr ++ [EvReport ReportSuccess])));
               EvConsole LOG "[Datadog API] No API key, skipping metric" None;
               EvConsole LOG "[Datadog API] No API key, skipping metric" None;
               EvConsole LOG "[Datadog API] No API key, skipping log" None])
       h).
Proof.
  intros Hkey. unfold recordSuccess.
  cbv [bind call exec emit Date_now ext trace host].
  rewrite !sendMetric_without_key by exact Hkey.
  rewrite sendLog_without_key by exact Hkey.
  rewrite Promise_all_settled, <- !app_assoc. reflexivity.
Qed.

Lemma recordError_without_key this errorMessage (s : S) tr h :
  key_present h = false ->
  recordError this errorMessage (mkWorld s tr h)
  = (Return tt,
     mkWorld s
       (tr ++ [EvReport (ReportError errorMessage);
               EvDateNow (clock h (count_events is_date_now
                                     (tr ++ [EvReport
                                               (ReportError errorMessage)])));
               EvConsole LOG "[Datadog API] No API key, skipping metric" None;
               EvConsole LOG "[Datadog API] No API key, skipping metric" None;
               EvConsole LOG "[Datadog API] No API key, skipping log" None])
       h).
Proof.
  intros Hkey. unfold recordError.
  cbv [bind call exec emit Date_now ext trace host].
  rewrite !sendMetric_without_key by exact Hkey.
  rewrite sendLog_without_key by exact Hkey.
  rewrite Promise_all_settled, <- !app_assoc. reflexivity.
Qed.

Lemma recordSuccess_with_key this (s : S) tr h apiKey :
  DD_API_KEY h = Some apiKey -> key_present h = true ->
  exists t0 t1 t2 logs,
    recordSuccess this (mkWorld s tr h)
    = (Return tt,
       mkWorld s
         (tr ++ EvReport ReportSuccess
             :: ([EvDateNow t0; EvDateNow t1;
                  EvHttp (nth 0 (success_requests h apiKey this t0 t1 t2)
                              (log_request h apiKey "" level_info []));
                  EvDateNow t2;
                  EvHttp (nth 1 (success_requests h apiKey this t0 t1 t2)
                              (log_request h apiKey "" level_info []));
                  EvHttp (nth 2 (success_requests h apiKey this t0 t1 t2)
                              (log_request h apiKey "" level_info []))]
                   ++ logs))
         h)
    /\ forallb is_console logs = true
    /\ List.length logs = 3%nat.
Proof.
  intros Hk Hp. unfold recordSuccess.
  cbv [bind call exec emit Date_now ext trace host].
  rewrite (sendMetric_with_key _ _ _ _ _ _ _ apiKey Hk Hp).
  cbv beta iota.
  rewrite (sendMetric_with_key _ _ _ _ _ _ _ apiKey Hk Hp).
  cbv beta iota.
  rewrite (sendLog_with_key _ _ _ _ _ _ apiKey Hk Hp).
  cbv beta iota.
  match goal with
  | |- context [Promise_all ?ps (mkWorld s ?t h)] =>
      destruct (Promise_all_quiet ps) with (s := s) (tr := t) (h := h)
        as (logs & Hrun & Hcls & Hlen)
  end.
  { repeat constructor;
      [apply metric_settled_quiet | apply metric_settled_quiet
       | apply log_settled_quiet]. }
  rewrite Hrun. do 3 eexists. exists logs.
  split; [| split; [exact Hcls | exact Hlen]].
  rewrite <- !app_assoc. reflexivity.
Qed.

Lemma recordError_with_key this errorMessage (s : S) tr h apiKey :
  DD_API_KEY h = Some apiKey -> key_present h = true ->
  exists t0 t1 t2 logs,
    recordError this errorMessage (mkWorld s tr h)
    = (Return tt,
       mkWorld s
         (tr ++ EvReport (ReportError errorMessage)
             :: ([EvDateNow t0; EvDateNow t1;
                  EvHttp (nth 0 (error_requests h apiKey this errorMessage
                                                t0 t1 t2)
                              (log_request h apiKey "" level_info []));
                  EvDateNow t2;
                  EvHttp (nth 1 (error_requests h apiKey this errorMessage
                                                t0 t1 t2)
                              (log_request h apiKey "" level_info []));
                  EvHttp (nth 2 (error_requests h apiKey this errorMessage
                                                t0 t1 t2)
                              (log_request h apiKey "" level_info []))]
                   ++ logs))
         h)
    /\ forallb is_console logs = true
    /\ List.length logs = 3%nat.
Proof.
  intros Hk Hp. unfold recordError.
  cbv [bind call exec emit Date_now ext trace host].
  rewrite (sendMetric_with_key _ _ _ _ _ _ _ apiKey Hk Hp).
  cbv beta iota.
  rewrite (sendMetric_with_key _ _ _ _ _ _ _ apiKey Hk Hp).
  cbv beta iota.
  rewrite (sendLog_with_key _ _ _ _ _ _ apiKey Hk Hp).
  cbv beta iota.
  match goal with
  | |- context [Promise_all ?ps (mkWorld s ?t h)] =>
      destruct (Promise_all_quiet ps) with (s := s) (tr := t) (h := h)
        as (logs & Hrun & Hcls & Hlen)
  end.
  { repeat constructor;
      [apply metric_settled_quiet | apply metric_settled_quiet
       | apply log_settled_quiet]. }
  rewrite Hrun. do 3 eexists. exists logs.
  split; [| split; [exact Hcls | exact Hlen]].
  rewrite <- !app_assoc. reflexivity.
Qed.

(** Either way a report method returns normally, leaves the operation's
    world alone and appends, after its marker, only clock readings,
    requests and console lines: no request without a key, three with one. *)
Lemma recordSuccess_run this (s : S) tr h :
  exists evs,
    recordSuccess this (mkWorld s tr h)
    = (Return tt, mkWorld s (tr ++ EvReport ReportSuccess :: evs) h)
    /\ forallb is_delivery_event evs = true
    /\ (key_present h = false -> http_requests evs = [])
    /\ (forall apiKey,
           DD_API_KEY h = Some apiKey -> key_present h = true ->
           exists t0 t1 t2,
             http_requests evs = success_requests h apiKey this t0 t1 t2)
    /\ count_events is_console evs = 3%nat.
Proof.
  destruct (key_cases h) as [[Hp (c & rest & Hk)] | [Hp _]].
  - destruct (recordSuccess_with_key this s tr h _ Hk Hp)
      as (t0 & t1 & t2 & logs & Hrun & Hcls & Hlen).
    destruct (delivery_of_console logs Hcls) as [Hd Hh].
    eexists. split; [exact Hrun |]. split; [| split; [| split]].
    + cbn [app forallb is_delivery_event andb]. exact Hd.
    + congruence.
    + intros apiKey Hk' _. exists t0, t1, t2.
      assert (apiKey = String c rest) as -> by congruence.
      cbn [app http_requests flat_map]. fold (http_requests logs).
      rewrite Hh. reflexivity.
    + unfold count_events. cbn [app filter is_console].
      rewrite (filter_all is_console logs Hcls). exact Hlen.
  - rewrite recordSuccess_without_key by exact Hp.
    eexists. split; [reflexivity |].
    split; [reflexivity |]. split; [reflexivity |].
    split; [congruence | reflexivity].
Qed.

Lemma recordError_run this errorMessage (s : S) tr h :
  exists evs,
    recordError this errorMessage (mkWorld s tr h)
    = (Return tt,
       mkWorld s (tr ++ EvReport (ReportError errorMessage) :: evs) h)
    /\ forallb is_delivery_event evs = true
    /\ (key_present h = false -> http_requests evs = [])
    /\ (forall apiKey,
           DD_API_KEY h = Some apiKey -> key_present h = true ->
           exists t0 t1 t2,
             http_requests evs
             = error_requests h apiKey this errorMessage t0 t1 t2)
    /\ count_events is_console evs = 3%nat.
Proof.
  destruct (key_cases h) as [[Hp (c & rest & Hk)] | [Hp _]].
  - destruct (recordError_with_key this errorMessage s tr h _ Hk Hp)
      as (t0 & t1 & t2 & logs & Hrun & Hcls & Hlen).
    destruct (delivery_of_console logs Hcls) as [Hd Hh].
    eexists. split; [exact Hrun |]. split; [| split; [| split]].
    + cbn [app forallb is_delivery_event andb]. exact Hd.
    + congruence.
    + intros apiKey Hk' _. exists t0, t1, t2.
      assert (apiKey = String c rest) as -> by congruence.
      cbn [app http_requests flat_map]. fold (http_requests logs).
      rewrite Hh. reflexivity.
    + unfold count_events. cbn [app filter is_console].
      rewrite (filter_all is_console logs Hcls). exact Hlen.
  - rewrite recordError_without_key by exact Hp.
    eexists. split; [reflexivity |].
    split; [reflexivity |]. split; [reflexivity |].
    split; [congruence | reflexivity].
Qed.
End ReportFacts.

(** ** The two remote operations *)

Lemma only_asks_refl model b : only_asks model b b.
Proof.
  split; [reflexivity |]. exists []. rewrite app_nil_r. split; constructor.
Qed.

Lemma only_asks_trans model b1 b2 b3 :
  only_asks model b1 b2 -> only_asks model b2 b3 -> only_asks model b1 b3.
Proof.
  intros [Hr1 (q1 & Hq1 & Hf1)] [Hr2 (q2 & Hq2 & Hf2)].
  split; [congruence |]. exists (q1 ++ q2).
  rewrite Hq2, Hq1, app_assoc. split; [reflexivity |].
  apply Forall_app. split; assumption.
Qed.

Lemma stateless_settle {W A} (r : Result A) : @stateless W A (settle r).
Proof. intros w. reflexivity. Qed.

Lemma stateless_ret {W A} (a : A) : @stateless W A (ret a).
Proof. intros w. reflexivity. Qed.

Lemma stateless_throw {W A} (e : jsval) : @stateless W A (throw e).
Proof. intros w. reflexivity. Qed.

Lemma stateless_bind {W A B} (m : M W A) (k : A -> M W B) :
  stateless m -> (forall a, stateless (k a)) -> stateless (bind m k).
Proof.
  intros Hm Hk w. unfold bind. specialize (Hm w).
  destruct (m w) as [[a | e] w']; cbn [snd] in *; subst w'.
  - apply Hk.
  - reflexivity.
Qed.

Create HintDb stateless.
#[local] Hint Resolve stateless_settle stateless_ret stateless_throw
  stateless_bind : stateless.

Lemma asks_then_stateless {A} (request : GenerateContentRequest)
      (k : GenerateContentResponse -> M Backend A) b :
  (forall response, stateless (k response)) ->
  only_asks (req_model request) b (snd (bind (generateContent request) k b)).
Proof.
  intros Hk. unfold bind, generateContent.
  assert (Hone : only_asks (req_model request) b
                   (mkBackend (respond b) (requests b ++ [request]))).
  { split; [reflexivity |]. exists [request].
    split; [reflexivity |]. repeat constructor. }
  destruct (respond b (requests b) request) as [response | reason].
  - rewrite Hk. exact Hone.
  - exact Hone.
Qed.

Section GeminiFacts.
Variable JSON_parse : string -> Result json.

Lemma formatDescription_stateless poseData :
  stateless (formatDescription poseData).
Proof.
  unfold formatDescription. repeat (apply stateless_bind; [| intros ?]);
    auto with stateless.
Qed.

Lemma analyzePose_asks apiKey poseImage attempt b :
  only_asks CONFIG.POSE_ANALYSIS_MODEL b
            (snd (analyzePose JSON_parse apiKey poseImage attempt b)).
Proof.
  unfold analyzePose.
  match goal with
  | |- only_asks _ _ (snd (bind (generateContent ?r) ?k _)) =>
      apply (asks_then_stateless r k)
  end.
  intros response. destruct (text response) as [responseText |];
    [| auto with stateless].
  destruct (truthy (Some responseText)); [| auto with stateless].
  apply stateless_bind; [auto with stateless | intros poseData].
  apply stateless_bind; [apply formatDescription_stateless | intros d].
  auto with stateless.
Qed.

Lemma generateImage_asks apiKey userImage poseImage description keypoints
      attempt b :
  only_asks CONFIG.IMAGE_GENERATION_MODEL b
            (snd (generateImage apiKey userImage poseImage description
                                keypoints attempt b)).
Proof.
  unfold generateImage.
  match goal with
  | |- only_asks _ _ (snd (bind (generateContent ?r) ?k _)) =>
      apply (asks_then_stateless r k)
  end.
  intros response. apply stateless_bind; [auto with stateless |].
  intros [ps |]; [| auto with stateless].
  destruct (first_inline_data ps); auto with stateless.
Qed.

(** Runs of the two retried operations: the completion and the final
    backend depend on the initial backend only; the trace grows by events
    of the retry wrapper; the backend was asked for one model only. *)
Lemma generatePoseDescription_run apiKey poseImage (b : Backend) :
  exists r b' evs,
    (forall tr h,
        generatePoseDescription JSON_parse apiKey poseImage (mkWorld b tr h)
        = (r, mkWorld b' (tr ++ evs) h))
    /\ forallb (is_retry_event "generatePoseDescription") evs = true
    /\ only_asks CONFIG.POSE_ANALYSIS_MODEL b b'.
Proof.
  apply retryOperation_run.
  - apply only_asks_refl.
  - apply only_asks_trans.
  - intros a s. apply analyzePose_asks.
Qed.

Lemma generatePoseImage_run apiKey userImage poseImage description keypoints
      (b : Backend) :
  exists r b' evs,
    (forall tr h,
        generatePoseImage apiKey userImage poseImage description keypoints
                          (mkWorld b tr h)
        = (r, mkWorld b' (tr ++ evs) h))
    /\ forallb (is_retry_event "generatePoseImage") evs = true
    /\ only_asks CONFIG.IMAGE_GENERATION_MODEL b b'.
Proof.
  apply retryOperation_run.
  - apply only_asks_refl.
  - apply only_asks_trans.
  - intros a s. apply generateImage_asks.
Qed.
End GeminiFacts.

(** ** The pipeline *)

Lemma count_events_app p l1 l2 :
  count_events p (l1 ++ l2) = (count_events p l1 + count_events p l2)%nat.
Proof. unfold count_events. rewrite filter_app. apply length_app. Qed.

Lemma filter_nil_of_class (c p : event -> bool) evs :
  forallb c evs = true ->
  (forall e, c e = true -> p e = false) ->
  filter p evs = [].
Proof.
  intros Hc Hp. induction evs as [| e evs IH]; [reflexivity |].
  cbn [forallb] in Hc. apply andb_prop in Hc as [He Hrest].
  cbn [filter]. rewrite (Hp e He). apply IH, Hrest.
Qed.

Lemma flat_map_nil_of_class {B} (c : event -> bool) (f : event -> list B) evs :
  forallb c evs = true ->
  (forall e, c e = true -> f e = []) ->
  flat_map f evs = [].
Proof.
  intros Hc Hf. induction evs as [| e evs IH]; [reflexivity |].
  cbn [forallb] in Hc. apply andb_prop in Hc as [He Hrest].
  cbn [flat_map]. rewrite (Hf e He). apply IH, Hrest.
Qed.

Lemma count_zero_of_class (c p : event -> bool) evs :
  forallb c evs = true ->
  (forall e, c e = true -> p e = false) ->
  count_events p evs = 0%nat.
Proof.
  intros Hc Hp. unfold count_events.
  rewrite (filter_nil_of_class c p evs Hc Hp). reflexivity.
Qed.

Lemma retry_not_parent name parent e :
  is_retry_event name e = true -> is_parent_event parent e = false.
Proof. destruct e; cbn; congruence. Qed.

Lemma retry_not_span name e :
  is_retry_event name e = true -> is_span_start e = false.
Proof. destruct e; cbn; congruence. Qed.

Lemma retry_not_http name e :
  is_retry_event name e = true ->
  match e with EvHttp r => [r] | _ => [] end = [].
Proof. destruct e; cbn; congruence. Qed.

Lemma retry_not_other_call name name' :
  String.eqb name name' = false ->
  forall e, is_retry_event name e = true -> is_call_of name' e = false.
Proof.
  intros Hne e. destruct e; cbn; try congruence.
  intros H. apply String.eqb_eq in H. subst. exact Hne.
Qed.

Lemma delivery_not_parent parent e :
  is_delivery_event e = true -> is_parent_event parent e = false.
Proof. destruct e; cbn; congruence. Qed.

Lemma delivery_not_span e :
  is_delivery_event e = true -> is_span_start e = false.
Proof. destruct e; cbn; congruence. Qed.

Lemma delivery_not_call name e :
  is_delivery_event e = true -> is_call_of name e = false.
Proof. destruct e; cbn; congruence. Qed.

Lemma other_span child parent :
  (parent < child)%nat -> (child =? parent)%nat = false.
Proof. intros H. apply Nat.eqb_neq. lia. Qed.

Section PipelineFacts.
Variable JSON_parse : string -> Result json.

(** The [try] block when pose analysis throws. *)
Lemma pipeline_steps_analysis_failed apiKey userImage poseImage start metrics
      parent b e bA evsA :
  (forall tr h,
      generatePoseDescription JSON_parse apiKey poseImage (mkWorld b tr h)
      = (Throw e, mkWorld bA (tr ++ evsA) h)) ->
  forallb (is_retry_event "generatePoseDescription") evsA = true ->
  forall tr h,
    exists evs,
      pipeline_steps JSON_parse apiKey userImage poseImage start metrics
                     parent (mkWorld b tr h)
      = (Throw e, mkWorld bA (tr ++ evs) h)
      /\ filter (is_parent_event parent) evs = []
      /\ filter (is_call_of "generatePoseImage") evs = []
      /\ http_requests evs = [].
Proof.
  intros HrunA HclsA tr h. eexists.
  unfold pipeline_steps.
  cbv [bind call exec startSpan console_log console emit ext trace host].
  rewrite HrunA. cbv beta iota.
  split; [rewrite <- !app_assoc; reflexivity |].
  unfold http_requests.
  rewrite !filter_app, !flat_map_app.
  rewrite (filter_nil_of_class _ _ evsA HclsA
             (retry_not_parent "generatePoseDescription" parent)).
  rewrite (filter_nil_of_class _ (is_call_of "generatePoseImage") evsA HclsA
             (retry_not_other_call "generatePoseDescription"
                                   "generatePoseImage" eq_refl)).
  rewrite (flat_map_nil_of_class _ _ evsA HclsA
             (retry_not_http "generatePoseDescription")).
  repeat split.
Qed.

(** The [catch] block. *)
Lemma pipeline_failed_run start metrics parent e (b : Backend) tr h :
  exists evs,
    pipeline_failed start metrics parent e (mkWorld b tr h)
    = (Return (failed (errorMessageOf e)), mkWorld b (tr ++ evs) h)
    /\ filter (is_parent_event parent) evs
       = [EvSetTag parent "llm.status" (TagStr "error");
          EvReport (ReportError (errorMessageOf e))]
    /\ filter (is_call_of "generatePoseImage") evs = []
    /\ (key_present h = false -> http_requests evs = [])
    /\ (forall apiKey,
           DD_API_KEY h = Some apiKey -> key_present h = true ->
           exists t0 t1 t2,
             http_requests evs
             = error_requests h apiKey metrics (errorMessageOf e) t0 t1 t2).
Proof.
  unfold pipeline_failed.
  cbv [bind call exec Date_now setTag recordGeneration console_log console
       emit ext trace host].
  match goal with
  | |- context [recordError metrics ?m (mkWorld b ?t h)] =>
      destruct (recordError_run metrics m b t h)
        as (evsR & HrunR & HclsR & Hnokey & Hkey & _)
  end.
  rewrite HrunR. cbv beta iota.
  eexists. split; [rewrite <- !app_assoc; reflexivity |].
  unfold http_requests in *.
  rewrite !filter_app, !flat_map_app.
  cbn [filter flat_map app is_parent_event is_call_of].
  rewrite Nat.eqb_refl.
  rewrite (filter_nil_of_class _ _ evsR HclsR (delivery_not_parent parent)).
  rewrite (filter_nil_of_class _ _ evsR HclsR
             (delivery_not_call "generatePoseImage")).
  cbn [String.eqb Ascii.eqb Bool.eqb andb app].
  rewrite !app_nil_r.
  repeat split; assumption.
Qed.

Lemma count_snoc_other p tr e :
  p e = false -> count_events p (tr ++ [e]) = count_events p tr.
Proof.
  intros H. rewrite count_events_app. unfold count_events at 2.
  cbn [filter]. rewrite H. cbn. lia.
Qed.

Lemma count_snoc_hit p tr e :
  p e = true -> count_events p (tr ++ [e]) = Datatypes.S (count_events p tr).
Proof.
  intros H. rewrite count_events_app. unfold count_events at 2.
  cbn [filter]. rewrite H. cbn. lia.
Qed.

Lemma count_after_class (c p : event -> bool) tr evs :
  forallb c evs = true ->
  (forall e, c e = true -> p e = false) ->
  count_events p (tr ++ evs) = count_events p tr.
Proof.
  intros Hc Hp. rewrite count_events_app, (count_zero_of_class c p evs Hc Hp).
  lia.
Qed.

(** Brings every count of span starts over a trace built by appending back
    to a count over the initial trace. *)
Ltac norm_span_counts :=
  repeat match goal with
    | |- context [count_events is_span_start (?t ++ [?e])] =>
        first [ rewrite (count_snoc_other is_span_start t e) by reflexivity
              | rewrite (count_snoc_hit is_span_start t e) by reflexivity ]
    | H : forallb (is_retry_event ?n) ?evs = true
      |- context [count_events is_span_start (?t ++ ?evs)] =>
        rewrite (count_after_class _ is_span_start t evs H (retry_not_span n))
    end.

Lemma generateWithPose_unfold apiKey userImage poseImage (b : Backend) tr h :
  generateWithPose JSON_parse apiKey userImage poseImage (mkWorld b tr h)
  = try_finally
      (try_catch
         (pipeline_steps JSON_parse apiKey userImage poseImage
                         (clock h (count_events is_date_now tr))
                         (pipeline_metrics h tr)
                         (count_events is_span_start tr))
         (pipeline_failed (clock h (count_events is_date_now tr))
                          (pipeline_metrics h tr)
                          (count_events is_span_start tr)))
      (exec (finish (count_events is_span_start tr)))
      (mkWorld b (tr ++ prelude_events h tr) h).
Proof.
  unfold generateWithPose, prelude_events, pipeline_metrics.
  cbv [bind call exec Date_now new_LLMMetrics startLLMSpan startSpan
       console_log console emit ext trace host].
  norm_span_counts. rewrite <- !app_assoc. reflexivity.
Qed.

Lemma prelude_view parent h tr :
  filter (is_parent_event parent) (prelude_events h tr) = []
  /\ filter (is_call_of "generatePoseImage") (prelude_events h tr) = []
  /\ http_requests (prelude_events h tr) = []
  /\ count_events is_span_start (tr ++ prelude_events h tr)
     = Datatypes.S (count_events is_span_start tr).
Proof.
  repeat split. rewrite count_events_app. unfold count_events at 2.
  cbn. lia.
Qed.

(** [generateWithPose] when pose analysis throws. *)
Lemma generateWithPose_analysis_failed apiKey userImage poseImage b e bA evsA :
  (forall tr h,
      generatePoseDescription JSON_parse apiKey poseImage (mkWorld b tr h)
      = (Throw e, mkWorld bA (tr ++ evsA) h)) ->
  forallb (is_retry_event "generatePoseDescription") evsA = true ->
  forall tr h,
    exists evs,
      generateWithPose JSON_parse apiKey userImage poseImage (mkWorld b tr h)
      = (Return (failed (errorMessageOf e)), mkWorld bA (tr ++ evs) h)
      /\ filter (is_parent_event (count_events is_span_start tr)) evs
         = [EvSetTag (count_events is_span_start tr) "llm.status"
                     (TagStr "error");
            EvReport (ReportError (errorMessageOf e));
            EvFinish (count_events is_span_start tr)]
      /\ filter (is_call_of "generatePoseImage") evs = []
      /\ (key_present h = false -> http_requests evs = [])
      /\ (forall apiKey',
             DD_API_KEY h = Some apiKey' -> key_present h = true ->
             exists t0 t1 t2,
               http_requests evs
               = error_requests h apiKey' (pipeline_metrics h tr)
                                (errorMessageOf e) t0 t1 t2).
Proof.
  intros HrunA HclsA tr h.
  rewrite generateWithPose_unfold. unfold try_finally, try_catch.
  destruct (pipeline_steps_analysis_failed
              apiKey userImage poseImage
              (clock h (count_events is_date_now tr)) (pipeline_metrics h tr)
              (count_events is_span_start tr) b e bA evsA HrunA HclsA
              (tr ++ prelude_events h tr) h)
    as (evs1 & Hsteps & Hview1 & Hcall1 & Hhttp1).
  rewrite Hsteps.
  destruct (pipeline_failed_run
              (clock h (count_events is_date_now tr)) (pipeline_metrics h tr)
              (count_events is_span_start tr) e bA
              ((tr ++ prelude_events h tr) ++ evs1) h)
    as (evs2 & Hfail & Hview2 & Hcall2 & Hnokey & Hkey).
  rewrite Hfail. cbv [exec finish emit ext trace host].
  destruct (prelude_view (count_events is_span_start tr) h tr)
    as (Hview0 & Hcall0 & Hhttp0 & _).
  exists (prelude_events h tr ++ evs1 ++ evs2
            ++ [EvFinish (count_events is_span_start tr)]).
  split; [rewrite <- !app_assoc; reflexivity |].
  rewrite !filter_app, !http_requests_app.
  rewrite Hview0, Hview1, Hview2, Hcall0, Hcall1, Hcall2, Hhttp0, Hhttp1.
  cbn [filter is_parent_event is_call_of http_requests flat_map app].
  rewrite Nat.eqb_refl, !app_nil_r.
  repeat split; assumption.
Qed.
(** The [try] block when pose analysis returns and image generation
    throws. *)
Lemma pipeline_steps_generation_failed apiKey userImage poseImage start
      metrics parent b d pd bA evsA e bG evsG :
  (forall tr h,
      generatePoseDescription JSON_parse apiKey poseImage (mkWorld b tr h)
      = (Return (d, pd), mkWorld bA (tr ++ evsA) h)) ->
  forallb (is_retry_event "generatePoseDescription") evsA = true ->
  (forall tr h,
      generatePoseImage apiKey userImage poseImage d pd (mkWorld bA tr h)
      = (Throw e, mkWorld bG (tr ++ evsG) h)) ->
  forallb (is_retry_event "generatePoseImage") evsG = true ->
  forall tr h,
    (parent < count_events is_span_start tr)%nat ->
    exists evs,
      pipeline_steps JSON_parse apiKey userImage poseImage start metrics
                     parent (mkWorld b tr h)
      = (Throw e, mkWorld bG (tr ++ evs) h)
      /\ filter (is_parent_event parent) evs = []
      /\ http_requests evs = [].
Proof.
  intros HrunA HclsA HrunG HclsG tr h Hparent. eexists.
  unfold pipeline_steps.
  cbv [bind call exec startSpan setTag finish console_log console emit
       ext trace host].
  rewrite HrunA. cbv beta iota.
  rewrite HrunG. cbv beta iota.
  norm_span_counts.
  split; [rewrite <- !app_assoc; reflexivity |].
  unfold http_requests.
  rewrite !filter_app, !flat_map_app.
  rewrite (filter_nil_of_class _ _ evsA HclsA
             (retry_not_parent "generatePoseDescription" parent)).
  rewrite (filter_nil_of_class _ _ evsG HclsG
             (retry_not_parent "generatePoseImage" parent)).
  rewrite (flat_map_nil_of_class _ _ evsA HclsA
             (retry_not_http "generatePoseDescription")).
  rewrite (flat_map_nil_of_class _ _ evsG HclsG
             (retry_not_http "generatePoseImage")).
  cbn [filter flat_map app is_parent_event].
  rewrite (other_span _ parent Hparent). cbn [andb].
  split; reflexivity.
Qed.

(** The [try] block when both operations return. *)
Lemma pipeline_steps_succeeded apiKey userImage poseImage start metrics
      parent b d pd bA evsA image bG evsG :
  (forall tr h,
      generatePoseDescription JSON_parse apiKey poseImage (mkWorld b tr h)
      = (Return (d, pd), mkWorld bA (tr ++ evsA) h)) ->
  forallb (is_retry_event "generatePoseDescription") evsA = true ->
  (forall tr h,
      generatePoseImage apiKey userImage poseImage d pd (mkWorld bA tr h)
      = (Return image, mkWorld bG (tr ++ evsG) h)) ->
  forallb (is_retry_event "generatePoseImage") evsG = true ->
  forall tr h,
    (parent < count_events is_span_start tr)%nat ->
    exists evs,
      pipeline_steps JSON_parse apiKey userImage poseImage start metrics
                     parent (mkWorld b tr h)
      = (Return (succeeded image d pd), mkWorld bG (tr ++ evs) h)
      /\ filter (is_parent_event parent) evs
         = [EvSetTag parent "llm.status" (TagStr "success");
            EvReport ReportSuccess]
      /\ (key_present h = false -> http_requests evs = [])
      /\ (forall apiKey',
             DD_API_KEY h = Some apiKey' -> key_present h = true ->
             exists t0 t1 t2,
               http_requests evs
               = success_requests h apiKey' metrics t0 t1 t2).
Proof.
  intros HrunA HclsA HrunG HclsG tr h Hparent.
  unfold pipeline_steps.
  cbv [bind call exec Date_now startSpan setTag finish recordGeneration
       console_log console emit ext trace host].
  rewrite HrunA. cbv beta iota.
  rewrite HrunG. cbv beta iota.
  match goal with
  | |- context [recordSuccess metrics (mkWorld bG ?t h)] =>
      destruct (recordSuccess_run metrics bG t h)
        as (evsR & HrunR & HclsR & Hnokey & Hkey & _)
  end.
  rewrite HrunR. cbv beta iota.
  norm_span_counts.
  eexists. split; [rewrite <- !app_assoc; reflexivity |].
  unfold http_requests in *.
  rewrite !filter_app, !flat_map_app.
  rewrite (filter_nil_of_class _ _ evsA HclsA
             (retry_not_parent "generatePoseDescription" parent)).
  rewrite (filter_nil_of_class _ _ evsG HclsG
             (retry_not_parent "generatePoseImage" parent)).
  rewrite (flat_map_nil_of_class _ _ evsA HclsA
             (retry_not_http "generatePoseDescription")).
  rewrite (flat_map_nil_of_class _ _ evsG HclsG
             (retry_not_http "generatePoseImage")).
  cbn [filter flat_map app is_parent_event].
  rewrite (filter_nil_of_class _ _ evsR HclsR (delivery_not_parent parent)).
  rewrite (other_span _ parent Hparent).
  rewrite (other_span (Datatypes.S _) parent) by lia.
  rewrite Nat.eqb_refl.
  cbn [String.eqb Ascii.eqb Bool.eqb andb app].
  rewrite ?app_nil_r.
  repeat split; assumption.
Qed.

(** [generateWithPose] when image generation throws. *)
Lemma generateWithPose_generation_failed apiKey userImage poseImage
      b d pd bA evsA e bG evsG :
  (forall tr h,
      generatePoseDescription JSON_parse apiKey poseImage (mkWorld b tr h)
      = (Return (d, pd), mkWorld bA (tr ++ evsA) h)) ->
  forallb (is_retry_event "generatePoseDescription") evsA = true ->
  (forall tr h,
      generatePoseImage apiKey userImage poseImage d pd (mkWorld bA tr h)
      = (Throw e, mkWorld bG (tr ++ evsG) h)) ->
  forallb (is_retry_event "generatePoseImage") evsG = true ->
  forall tr h,
    exists evs,
      generateWithPose JSON_parse apiKey userImage poseImage (mkWorld b tr h)
      = (Return (failed (errorMessageOf e)), mkWorld bG (tr ++ evs) h)
      /\ filter (is_parent_event (count_events is_span_start tr)) evs
         = [EvSetTag (count_events is_span_start tr) "llm.status"
                     (TagStr "error");
            EvReport (ReportError (errorMessageOf e));
            EvFinish (count_events is_span_start tr)]
      /\ (key_present h = false -> http_requests evs = [])
      /\ (forall apiKey',
             DD_API_KEY h = Some apiKey' -> key_present h = true ->
             exists t0 t1 t2,
               http_requests evs
               = error_requests h apiKey' (pipeline_metrics h tr)
                                (errorMessageOf e) t0 t1 t2).
Proof.
  intros HrunA HclsA HrunG HclsG tr h.
  rewrite generateWithPose_unfold. unfold try_finally, try_catch.
  destruct (prelude_view (count_events is_span_start tr) h tr)
    as (Hview0 & _ & Hhttp0 & Hspans).
  destruct (pipeline_steps_generation_failed
              apiKey userImage poseImage
              (clock h (count_events is_date_now tr)) (pipeline_metrics h tr)
              (count_events is_span_start tr) b d pd bA evsA e bG evsG
              HrunA HclsA HrunG HclsG (tr ++ prelude_events h tr) h)
    as (evs1 & Hsteps & Hview1 & Hhttp1); [rewrite Hspans; lia |].
  rewrite Hsteps.
  destruct (pipeline_failed_run
              (clock h (count_events is_date_now tr)) (pipeline_metrics h tr)
              (count_events is_span_start tr) e bG
              ((tr ++ prelude_events h tr) ++ evs1) h)
    as (evs2 & Hfail & Hview2 & _ & Hnokey & Hkey).
  rewrite Hfail. cbv [exec finish emit ext trace host].
  exists (prelude_events h tr ++ evs1 ++ evs2
            ++ [EvFinish (count_events is_span_start tr)]).
  split; [rewrite <- !app_assoc; reflexivity |].
  rewrite !filter_app, !http_requests_app.
  rewrite Hview0, Hview1, Hview2, Hhttp0, Hhttp1.
  cbn [filter is_parent_event http_requests flat_map app].
  rewrite Nat.eqb_refl, !app_nil_r.
  repeat split; assumption.
Qed.

(** [generateWithPose] when both operations return. *)
Lemma generateWithPose_succeeded apiKey userImage poseImage
      b d pd bA evsA image bG evsG :
  (forall tr h,
      generatePoseDescription JSON_parse apiKey poseImage (mkWorld b tr h)
      = (Return (d, pd), mkWorld bA (tr ++ evsA) h)) ->
  forallb (is_retry_event "generatePoseDescription") evsA = true ->
  (forall tr h,
      generatePoseImage apiKey userImage poseImage d pd (mkWorld bA tr h)
      = (Return image, mkWorld bG (tr ++ evsG) h)) ->
  forallb (is_retry_event "generatePoseImage") evsG = true ->
  forall tr h,
    exists evs,
      generateWithPose JSON_parse apiKey userImage poseImage (mkWorld b tr h)
      = (Return (succeeded image d pd), mkWorld bG (tr ++ evs) h)
      /\ filter (is_parent_event (count_events is_span_start tr)) evs
         = [EvSetTag (count_events is_span_start tr) "llm.status"
                     (TagStr "success");
            EvReport ReportSuccess;
            EvFinish (count_events is_span_start tr)]
      /\ (key_present h = false -> http_requests evs = [])
      /\ (forall apiKey',
             DD_API_KEY h = Some apiKey' -> key_present h = true ->
             exists t0 t1 t2,
               http_requests evs
               = success_requests h apiKey' (pipeline_metrics h tr)
                                  t0 t1 t2).
Proof.
  intros HrunA HclsA HrunG HclsG tr h.
  rewrite generateWithPose_unfold. unfold try_finally, try_catch.
  destruct (prelude_view (count_events is_span_start tr) h tr)
    as (Hview0 & _ & Hhttp0 & Hspans).
  destruct (pipeline_steps_succeeded
              apiKey userImage poseImage
              (clock h (count_events is_date_now tr)) (pipeline_metrics h tr)
              (count_events is_span_start tr) b d pd bA evsA image bG evsG
              HrunA HclsA HrunG HclsG (tr ++ prelude_events h tr) h)
    as (evs1 & Hsteps & Hview1 & Hnokey & Hkey); [rewrite Hspans; lia |].
  rewrite Hsteps. cbv [exec finish emit ext trace host].
  exists (prelude_events h tr ++ evs1
            ++ [EvFinish (count_events is_span_start tr)]).
  split; [rewrite <- !app_assoc; reflexivity |].
  rewrite !filter_app, !http_requests_app.
  rewrite Hview0, Hview1, Hhttp0.
  cbn [filter is_parent_event http_requests flat_map app].
  rewrite Nat.eqb_refl, !app_nil_r.
  repeat split; assumption.
Qed.
(** Every run of [generateWithPose]: it returns, with a result and a final
    backend that depend on the initial backend only, and what it does to
    its parent span and to the report path is one status tag, one report
    and one finish, in this order, all three matching the result. *)
Lemma generateWithPose_run apiKey userImage poseImage (b : Backend) :
  exists result b',
    ((exists image d pd, result = succeeded image d pd)
     \/ (exists msg, result = failed msg))
    /\ forall tr h,
      exists evs,
        generateWithPose JSON_parse apiKey userImage poseImage
                         (mkWorld b tr h)
        = (Return result, mkWorld b' (tr ++ evs) h)
        /\ filter (is_parent_event (count_events is_span_start tr)) evs
           = [EvSetTag (count_events is_span_start tr) "llm.status"
                       (TagStr (status_of result));
              EvReport (report_of result);
              EvFinish (count_events is_span_start tr)]
        /\ (key_present h = false -> http_requests evs = [])
        /\ (key_present h = true -> List.length (http_requests evs) = 3%nat).
Proof.
  destruct (generatePoseDescription_run JSON_parse apiKey poseImage b)
    as (rA & bA & evsA & HrunA & HclsA & _).
  destruct rA as [[d pd] | e].
  - destruct (generatePoseImage_run apiKey userImage poseImage d pd bA)
      as (rG & bG & evsG & HrunG & HclsG & _).
    destruct rG as [image | e].
    + exists (succeeded image d pd), bG.
      split; [left; exists image, d, pd; reflexivity |].
      intros tr h.
      destruct (generateWithPose_succeeded
                  apiKey userImage poseImage b d pd bA evsA image bG evsG
                  HrunA HclsA HrunG HclsG tr h)
        as (evs & Hrun & Hview & Hnokey & Hkey).
      exists evs. split; [exact Hrun |]. split; [exact Hview |].
      split; [exact Hnokey |]. intros Hp.
      destruct (key_cases h) as [[_ (c & rest & Hk)] | [Hn _]];
        [| congruence].
      destruct (Hkey _ Hk Hp) as (t0 & t1 & t2 & Hreq).
      rewrite Hreq. reflexivity.
    + exists (failed (errorMessageOf e)), bG.
      split; [right; exists (errorMessageOf e); reflexivity |].
      intros tr h.
      destruct (generateWithPose_generation_failed
                  apiKey userImage poseImage b d pd bA evsA e bG evsG
                  HrunA HclsA HrunG HclsG tr h)
        as (evs & Hrun & Hview & Hnokey & Hkey).
      exists evs. split; [exact Hrun |]. split; [exact Hview |].
      split; [exact Hnokey |]. intros Hp.
      destruct (key_cases h) as [[_ (c & rest & Hk)] | [Hn _]];
        [| congruence].
      destruct (Hkey _ Hk Hp) as (t0 & t1 & t2 & Hreq).
      rewrite Hreq. reflexivity.
  - exists (failed (errorMessageOf e)), bA.
    split; [right; exists (errorMessageOf e); reflexivity |].
    intros tr h.
    destruct (generateWithPose_analysis_failed
                apiKey userImage poseImage b e bA evsA HrunA HclsA tr h)
      as (evs & Hrun & Hview & _ & Hnokey & Hkey).
    exists evs. split; [exact Hrun |]. split; [exact Hview |].
    split; [exact Hnokey |]. intros Hp.
    destruct (key_cases h) as [[_ (c & rest & Hk)] | [Hn _]];
      [| congruence].
    destruct (Hkey _ Hk Hp) as (t0 & t1 & t2 & Hreq).
    rewrite Hreq. reflexivity.
Qed.
End PipelineFacts.



(** C6: every call of [generateWithPose] returns a result with exactly one
    branch populated: with [success = true] the image, the description and
    the pose data are present and [error] is absent; with
    [success = false] it is the other way round. *)
Theorem generateWithPose_one_branch :
  forall (JSON_parse : string -> Result json) (apiKey : string)
         (userImage poseImage : ImageData) (w : World Backend),
    exists result w',
      generateWithPose JSON_parse apiKey userImage poseImage w
      = (Return result, w')
      /\ one_branch result.
Proof.
  intros JSON_parse apiKey userImage poseImage [b tr h].
  destruct (generateWithPose_run JSON_parse apiKey userImage poseImage b)
    as (result & b' & Hshape & Hrun).
  destruct (Hrun tr h) as (evs & Heq & _).
  exists result, (mkWorld b' (tr ++ evs) h). split; [exact Heq |].
  destruct Hshape as [(image & d & pd & ->) | (msg & ->)];
    cbn; repeat split; discriminate.
Qed.

Section EmptyAnalysis.
Variable JSON_parse : string -> Result json.
Variable apiKey : string.
Variable poseImage : ImageData.




End EmptyAnalysis.



(** C10: without [DD_API_KEY], [sendMetric] and [sendLog] return a promise
    that is already resolved, having only logged that they skip; no HTTPS
    request leaves; [recordSuccess] and [recordError] then return normally
    with three such skip lines and no request. *)
Theorem no_api_key_no_delivery :
  forall {S : Type} (w : World S) (metricName : string) (value : Z)
         (tags : list string) (metricType : MetricType) (message : string)
         (level : LogLevel) (additionalData : list (string * json))
         (this : LLMMetrics) (errorMessage : string),
    DD_API_KEY (host w) = None ->
    sendMetric metricName value tags metricType w
    = (Settled (Return tt),
       console_log "[Datadog API] No API key, skipping metric" w)
    /\ sendLog message level additionalData w
       = (Settled (Return tt),
          console_log "[Datadog API] No API key, skipping log" w)
    /\ (exists w' evs,
           recordSuccess this w = (Return tt, w')
           /\ trace w' = trace w ++ evs
           /\ http_requests evs = []
           /\ filter is_console evs
              = [EvConsole LOG "[Datadog API] No API key, skipping metric" None;
                 EvConsole LOG "[Datadog API] No API key, skipping metric" None;
                 EvConsole LOG "[Datadog API] No API key, skipping log" None])
    /\ (exists w' evs,
           recordError this errorMessage w = (Return tt, w')
           /\ trace w' = trace w ++ evs
           /\ http_requests evs = []
           /\ filter is_console evs
              = [EvConsole LOG "[Datadog API] No API key, skipping metric" None;
                 EvConsole LOG "[Datadog API] No API key, skipping metric" None;
                 EvConsole LOG "[Datadog API] No API key, skipping log" None]).
Proof.
  intros S [s tr h] metricName value tags metricType message level
         additionalData this errorMessage Hkey.
  cbn [host] in Hkey.
  assert (Hp : key_present h = false)
    by (unfold key_present; rewrite Hkey; reflexivity).
  split; [apply sendMetric_without_key, Hp |].
  split; [apply sendLog_without_key, Hp |].
  split.
  - rewrite recordSuccess_without_key by exact Hp.
    eexists _, _. split; [reflexivity |]. repeat split.
  - rewrite recordError_without_key by exact Hp.
    eexists _, _. split; [reflexivity |]. repeat split.
Qed.

Lemma no_api_key_no_delivery_witness :
  DD_API_KEY (host sample_counter_world) = None
  /\ sendMetric "poseshift.llm.request.count" 1 ["status:success"] Count
                sample_counter_world
     = (Settled (Return tt),
        console_log "[Datadog API] No API key, skipping metric"
                    sample_counter_world)
  /\ sendLog "LLM generation completed" level_info [] sample_counter_world
     = (Settled (Return tt),
        console_log "[Datadog API] No API key, skipping log"
                    sample_counter_world).
Proof.
  split; [reflexivity |].
  destruct (no_api_key_no_delivery
              sample_counter_world "poseshift.llm.request.count" 1
              ["status:success"] Count "LLM generation completed" level_info
              [] (mkLLMMetrics 0 "full_generation" "gemini-pipeline")
              "failure" eq_refl) as (Hmetric & Hlog & _).
  split; [exact Hmetric | exact Hlog].
Defined.



(** One attempt of [generateImage] on a response whose list of candidates
    is missing or has a first element: the data of the first part that
    carries some, else the error "Image generation failed. The model did
    not return an image.". *)
Lemma generateImage_scans_first_candidate apiKey userImage poseImage
      description keypoints attempt b response :
  (forall request, respond b (requests b) request = Responds response) ->
  candidates response <> Some [] ->
  fst (generateImage apiKey userImage poseImage description keypoints
                     attempt b)
  = match image_payload response with
    | Some image => Return image
    | None => Throw (new_Error NO_IMAGE)
    end.
Proof.
  intros Hresp Hne.
  unfold generateImage, bind, generateContent, settle, candidate_parts,
    image_payload.
  rewrite Hresp.
  destruct (candidates response) as [[| first rest] |];
    [contradiction | | reflexivity].
  destruct (content first) as [c |]; [| reflexivity].
  destruct (parts c) as [ps |]; [| reflexivity].
  destruct (first_inline_data ps); reflexivity.
Qed.

(** C8: on a response whose list of candidates is empty, which carries no
    image, one attempt of [generateImage] throws the [TypeError] of the
    read of [candidates[0].content], not the error "Image generation
    failed. The model did not return an image.". *)
Theorem generateImage_empty_candidates :
  image_payload (mkResponse None (Some [])) = None
  /\ fst (generateImage "gemini-key" sample_user_image sample_pose_image
                     "a pose" sample_pose 1 no_candidate_backend)
  = Throw (TypeError "Cannot read properties of undefined (reading 'content')")
  /\ fst (generateImage "gemini-key" sample_user_image sample_pose_image
                        "a pose" sample_pose 1 no_candidate_backend)
     <> Throw (new_Error NO_IMAGE).
Proof.
  split; [reflexivity |]. split; [reflexivity | discriminate].
Qed.

(** ** The successful scenario *)

Section Scenario.
Variable JSON_parse : string -> Result json.




End Scenario.









(** * Further properties *)

(** ** The retry loop, whatever the operation does *)

Lemma first_return_or_all_fail {S T : Type} (operation : Z -> M S T)
      (s : S) (n : nat) :
  (forall k, (1 <= k <= n)%nat ->
             is_throw (outcome_of_attempt operation k s) = true)
  \/ exists k,
      (1 <= k <= n)%nat
      /\ (forall j, (1 <= j < k)%nat ->
                    is_throw (outcome_of_attempt operation j s) = true)
      /\ is_throw (outcome_of_attempt operation k s) = false.
Proof.
  induction n as [| n IH].
  - left. intros k Hk. lia.
  - destruct IH as [Hall | (k & Hk & Hbefore & Hreturn)].
    + destruct (is_throw (outcome_of_attempt operation (Datatypes.S n) s))
        eqn:Hlast.
      * left. intros k Hk.
        destruct (Nat.eq_dec k (Datatypes.S n)) as [-> | Hne];
          [exact Hlast | apply Hall; lia].
      * right. exists (Datatypes.S n).
        split; [lia |]. split; [| exact Hlast].
        intros j Hj. apply Hall. lia.
    + right. exists k. split; [lia |]. split; assumption.
Qed.

(** A run with [n >= 1] attempts allowed, whatever the trace and the
    host: the attempts made are [1] to [k], the completion is that of
    attempt [k], and the run stops early only on a return. *)
Lemma retry_detailed {S T : Type} (operation : Z -> M S T) (name : string)
      (n : nat) (delayMs : Z) (s : S) :
  (1 <= n)%nat ->
  exists k evs,
    (1 <= k <= n)%nat
    /\ (forall tr h,
           retryOperation operation name (Z.of_nat n) delayMs (mkWorld s tr h)
           = (outcome_of_attempt operation k s,
              mkWorld (state_after operation k s) (tr ++ evs) h))
    /\ forallb (is_retry_event name) evs = true
    /\ filter is_call_or_sleep evs = attempts_schedule name delayMs k
    /\ ((k < n)%nat -> is_throw (outcome_of_attempt operation k s) = false).
Proof.
  intros Hn.
  destruct (retryOperation_run operation name (Z.of_nat n) delayMs
              (fun _ _ => True) (fun _ => I) (fun _ _ _ _ _ => I)
              (fun _ _ => I) s)
    as (r & s' & evs & Hrun & Hcls & _).
  pose proof (Hrun [] idle_host) as H0. cbn [app] in H0.
  destruct (first_return_or_all_fail operation s n)
    as [Hall | (k & Hk & Hbefore & Hreturn)].
  - destruct (retry_exhausts operation name n delayMs (mkWorld s [] idle_host)
                Hn Hall)
      as (e & w' & evs0 & Hrun0 & Hlast & Hext & Htrace & Hsched).
    cbn [ext trace app] in *. rewrite Hrun0 in H0.
    injection H0 as Hr Hw. subst r w'. cbn [ext trace] in *. subst.
    exists n, evs0. split; [lia |]. rewrite Hlast.
    split; [exact Hrun |]. split; [exact Hcls |]. split; [exact Hsched |].
    intros Hlt. lia.
  - destruct (outcome_of_attempt operation k s) as [v | e] eqn:Hout;
      [| discriminate].
    destruct (retry_first_return operation name (Z.of_nat n) delayMs
                (mkWorld s [] idle_host) k v)
      as (w' & evs0 & Hrun0 & Hext & Htrace & Hsched);
      [lia | lia | exact Hbefore | exact Hout |].
    cbn [ext trace app] in *. rewrite Hrun0 in H0.
    injection H0 as Hr Hw. subst r w'. cbn [ext trace] in *. subst.
    exists k, evs0. rewrite Hout. split; [exact Hk |].
    split; [exact Hrun |]. split; [exact Hcls |]. split; [exact Hsched |].
    intros _. reflexivity.
Qed.

(** X1: with [n >= 1] attempts allowed, whatever the operation does, a run
    of [retryOperation] makes the attempts [1] to [k] for some [k] between
    [1] and [n] and none other, sleeping [delayMs] between two attempts;
    it completes as attempt [k] did, and it stops before attempt [n] only
    on an attempt that returned. *)
Theorem retryOperation_completes_as_last_attempt :
  forall {S T : Type} (operation : Z -> M S T) (name : string) (n : nat)
         (delayMs : Z) (w : World S),
    (1 <= n)%nat ->
    exists k w' evs,
      (1 <= k <= n)%nat
      /\ retryOperation operation name (Z.of_nat n) delayMs w
         = (outcome_of_attempt operation k (ext w), w')
      /\ ext w' = state_after operation k (ext w)
      /\ trace w' = trace w ++ evs
      /\ filter is_call_or_sleep evs = attempts_schedule name delayMs k
      /\ ((k < n)%nat ->
          is_throw (outcome_of_attempt operation k (ext w)) = false).
Proof.
  intros S T operation name n delayMs [s tr h] Hn. cbn [ext trace].
  destruct (retry_detailed operation name n delayMs s Hn)
    as (k & evs & Hk & Hrun & _ & Hsched & Hearly).
  exists k, (mkWorld (state_after operation k s) (tr ++ evs) h), evs.
  split; [exact Hk |]. split; [apply Hrun |].
  split; [reflexivity |]. split; [reflexivity |].
  split; [exact Hsched | exact Hearly].
Qed.

Lemma retryOperation_completes_as_last_attempt_witness :
  (1 <= 3)%nat
  /\ exists k w' evs,
      (1 <= k <= 3)%nat
      /\ retryOperation (succeeds_at 2) "demo" (Z.of_nat 3) 2000
                        sample_counter_world
         = (outcome_of_attempt (succeeds_at 2) k (ext sample_counter_world),
            w')
      /\ ext w' = state_after (succeeds_at 2) k (ext sample_counter_world)
      /\ trace w' = trace sample_counter_world ++ evs
      /\ filter is_call_or_sleep evs = attempts_schedule "demo" 2000 k
      /\ ((k < 3)%nat ->
          is_throw (outcome_of_attempt (succeeds_at 2) k
                      (ext sample_counter_world)) = false).
Proof.
  split; [lia |].
  apply (retryOperation_completes_as_last_attempt
           (succeeds_at 2) "demo" 3 2000 sample_counter_world). lia.
Defined.

Lemma sleeps_of_schedule name delayMs (j : nat) :
  forall a,
    filter is_sleep
           (flat_map (fun k => [EvCall name (Z.of_nat k); EvSleep delayMs])
                     (seq a j))
    = repeat (EvSleep delayMs) j.
Proof.
  induction j as [| j IH]; intros a; [reflexivity |].
  cbn [seq flat_map app filter is_sleep repeat]. rewrite IH. reflexivity.
Qed.



(** ** The two remote operations, attempt by attempt *)

Lemma asked_asked b l1 l2 : asked (asked b l1) l2 = asked b (l1 ++ l2).
Proof. unfold asked. cbn [respond requests]. rewrite app_assoc. reflexivity. Qed.

Lemma asked_nil b : asked b [] = b.
Proof. destruct b. unfold asked. cbn. rewrite app_nil_r. reflexivity. Qed.

Lemma asks_exactly {A} (request : GenerateContentRequest)
      (k : GenerateContentResponse -> M Backend A) b :
  (forall response, stateless (k response)) ->
  snd (bind (generateContent request) k b) = asked b [request].
Proof.
  intros Hk. unfold bind, generateContent.
  destruct (respond b (requests b) request) as [response | reason].
  - rewrite Hk. reflexivity.
  - reflexivity.
Qed.

Lemma state_after_asked {T} (operation : Z -> M Backend T) request k b :
  (forall a s, snd (operation a s) = asked s [request]) ->
  state_after operation k b = asked b (repeat request k).
Proof.
  intros Hop. induction k as [| k IH].
  - cbn [state_after repeat]. symmetry. apply asked_nil.
  - rewrite state_after_succ, Hop, IH, asked_asked.
    cbn [repeat]. rewrite <- repeat_cons. reflexivity.
Qed.

Section Attempts3.
Variable JSON_parse : string -> Result json.

Lemma analyzePose_asked apiKey poseImage attempt b :
  snd (analyzePose JSON_parse apiKey poseImage attempt b)
  = asked b [analysis_request apiKey poseImage].
Proof.
  unfold analyzePose, analysis_request.
  match goal with
  | |- snd (bind (generateContent ?r) ?k _) = _ =>
      apply (asks_exactly r k)
  end.
  intros response. destruct (text response) as [responseText |];
    [| auto with stateless].
  destruct (truthy (Some responseText)); [| auto with stateless].
  apply stateless_bind; [auto with stateless | intros poseData].
  apply stateless_bind; [apply formatDescription_stateless | intros d].
  auto with stateless.
Qed.

Lemma generateImage_asked apiKey userImage poseImage description keypoints
      attempt b :
  snd (generateImage apiKey userImage poseImage description keypoints
                     attempt b)
  = asked b [image_request apiKey userImage poseImage description keypoints].
Proof.
  unfold generateImage, image_request.
  match goal with
  | |- snd (bind (generateContent ?r) ?k _) = _ =>
      apply (asks_exactly r k)
  end.
  intros response. apply stateless_bind; [auto with stateless |].
  intros [ps |]; [| auto with stateless].
  destruct (first_inline_data ps); auto with stateless.
Qed.

(** A run of [generatePoseDescription], whatever the trace and the host. *)
Lemma generatePoseDescription_detailed apiKey poseImage (b : Backend) :
  exists k evs,
    (1 <= k <= 3)%nat
    /\ (forall tr h,
           generatePoseDescription JSON_parse apiKey poseImage
                                   (mkWorld b tr h)
           = (outcome_of_attempt (analyzePose JSON_parse apiKey poseImage)
                                 k b,
              mkWorld (asked b (repeat (analysis_request apiKey poseImage) k))
                      (tr ++ evs) h))
    /\ forallb (is_retry_event "generatePoseDescription") evs = true
    /\ filter is_call_or_sleep evs
       = attempts_schedule "generatePoseDescription" CONFIG.RETRY_DELAY_MS k
    /\ ((k < 3)%nat ->
        is_throw (outcome_of_attempt
                    (analyzePose JSON_parse apiKey poseImage) k b) = false).
Proof.
  destruct (retry_detailed (analyzePose JSON_parse apiKey poseImage)
              "generatePoseDescription" 3 CONFIG.RETRY_DELAY_MS b)
    as (k & evs & Hk & Hrun & Hcls & Hsched & Hearly); [lia |].
  exists k, evs. split; [exact Hk |].
  split; [| split; [exact Hcls | split; [exact Hsched | exact Hearly]]].
  intros tr h. unfold generatePoseDescription.
  change CONFIG.MAX_RETRIES with (Z.of_nat 3). rewrite Hrun.
  rewrite (state_after_asked _ (analysis_request apiKey poseImage))
    by (intros a s; apply analyzePose_asked).
  reflexivity.
Qed.

(** A run of [generatePoseImage], whatever the trace and the host. *)
Lemma generatePoseImage_detailed apiKey userImage poseImage description
      keypoints (b : Backend) :
  exists k evs,
    (1 <= k <= 3)%nat
    /\ (forall tr h,
           generatePoseImage apiKey userImage poseImage description keypoints
                             (mkWorld b tr h)
           = (outcome_of_attempt
                (generateImage apiKey userImage poseImage description
                               keypoints) k b,
              mkWorld (asked b (repeat (image_request apiKey userImage
                                          poseImage description keypoints)
                                       k))
                      (tr ++ evs) h))
    /\ forallb (is_retry_event "generatePoseImage") evs = true
    /\ filter is_call_or_sleep evs
       = attempts_schedule "generatePoseImage" CONFIG.RETRY_DELAY_MS k
    /\ ((k < 3)%nat ->
        is_throw (outcome_of_attempt
                    (generateImage apiKey userImage poseImage description
                                   keypoints) k b) = false).
Proof.
  destruct (retry_detailed
              (generateImage apiKey userImage poseImage description keypoints)
              "generatePoseImage" 3 CONFIG.RETRY_DELAY_MS b)
    as (k & evs & Hk & Hrun & Hcls & Hsched & Hearly); [lia |].
  exists k, evs. split; [exact Hk |].
  split; [| split; [exact Hcls | split; [exact Hsched | exact Hearly]]].
  intros tr h. unfold generatePoseImage.
  change CONFIG.MAX_RETRIES with (Z.of_nat 3). rewrite Hrun.
  rewrite (state_after_asked
             _ (image_request apiKey userImage poseImage description
                              keypoints))
    by (intros a s; apply generateImage_asked).
  reflexivity.
Qed.
End Attempts3.

(** X3: a call of [generatePoseDescription] sends the analysis request one
    to three times, the same request each time (model, prompt, pose image,
    JSON schema config), and nothing else; it sends it fewer than three
    times only when it returns.  The same holds of [generatePoseImage] and
    its request (user image, pose image, prompt). *)
Theorem remote_operations_resend_the_same_request :
  forall (JSON_parse : string -> Result json) (apiKey : string)
         (userImage poseImage : ImageData) (description : string)
         (keypoints : json) (w : World Backend),
    (exists k,
        (1 <= k <= 3)%nat
        /\ ext (snd (generatePoseDescription JSON_parse apiKey poseImage w))
           = asked (ext w) (repeat (analysis_request apiKey poseImage) k)
        /\ ((k < 3)%nat ->
            is_throw (fst (generatePoseDescription JSON_parse apiKey
                                                    poseImage w)) = false))
    /\ (exists k,
           (1 <= k <= 3)%nat
           /\ ext (snd (generatePoseImage apiKey userImage poseImage
                                          description keypoints w))
              = asked (ext w)
                      (repeat (image_request apiKey userImage poseImage
                                             description keypoints) k)
           /\ ((k < 3)%nat ->
               is_throw (fst (generatePoseImage apiKey userImage poseImage
                                                description keypoints w))
               = false)).
Proof.
  intros JSON_parse apiKey userImage poseImage description keypoints
         [b tr h].
  cbn [ext]. split.
  - destruct (generatePoseDescription_detailed JSON_parse apiKey poseImage b)
      as (k & evs & Hk & Hrun & _ & _ & Hearly).
    exists k. rewrite Hrun. cbn [fst snd ext].
    split; [exact Hk |]. split; [reflexivity | exact Hearly].
  - destruct (generatePoseImage_detailed apiKey userImage poseImage
                description keypoints b)
      as (k & evs & Hk & Hrun & _ & _ & Hearly).
    exists k. rewrite Hrun. cbn [fst snd ext].
    split; [exact Hk |]. split; [reflexivity | exact Hearly].
Qed.

(** An analysis endpoint that answers every request with a text that
    [JSON_parse] rejects with [e]. *)
Lemma analyzePose_parse_error JSON_parse apiKey poseImage attempt b
      response t e :
  (forall history request,
      req_model request = CONFIG.POSE_ANALYSIS_MODEL ->
      respond b history request = Responds response) ->
  text response = Some t -> truthy (Some t) = true ->
  JSON_parse (trim t) = Throw e ->
  fst (analyzePose JSON_parse apiKey poseImage attempt b) = Throw e.
Proof.
  intros Hresp Htext Htruthy Hparse.
  unfold analyzePose, bind, generateContent.
  match goal with
  | |- context [respond b (requests b) ?r] =>
      rewrite (Hresp (requests b) r eq_refl)
  end.
  rewrite Htext, Htruthy. unfold settle at 1. rewrite Hparse. reflexivity.
Qed.

(** X4: a text that [JSON.parse] rejects is retried like any other
    failure: when the analysis endpoint keeps answering with such a text,
    [generatePoseDescription] sends its request three times, waits 2000 ms
    twice, and throws the error of [JSON.parse] unchanged. *)
Theorem generatePoseDescription_retries_unparsable_text :
  forall (JSON_parse : string -> Result json) (apiKey : string)
         (poseImage : ImageData) (w : World Backend)
         (response : GenerateContentResponse) (t : string) (e : jsval),
    (forall history request,
        req_model request = CONFIG.POSE_ANALYSIS_MODEL ->
        respond (ext w) history request = Responds response) ->
    text response = Some t ->
    truthy (Some t) = true ->
    JSON_parse (trim t) = Throw e ->
    exists w' evs,
      generatePoseDescription JSON_parse apiKey poseImage w = (Throw e, w')
      /\ ext w' = asked (ext w) (repeat (analysis_request apiKey poseImage) 3)
      /\ trace w' = trace w ++ evs
      /\ filter is_call_or_sleep evs
         = [EvCall "generatePoseDescription" 1; EvSleep 2000;
            EvCall "generatePoseDescription" 2; EvSleep 2000;
            EvCall "generatePoseDescription" 3].
Proof.
  intros JSON_parse apiKey poseImage [b tr h] response t e
         Hresp Htext Htruthy Hparse.
  cbn [ext trace] in *.
  assert (Hout : forall k,
             outcome_of_attempt (analyzePose JSON_parse apiKey poseImage) k b
             = Throw e).
  { intros k. unfold outcome_of_attempt.
    apply (analyzePose_parse_error _ _ _ _ _ response t); try assumption.
    intros history request Hmodel.
    rewrite (state_after_asked _ (analysis_request apiKey poseImage))
      by (intros a s; apply analyzePose_asked).
    cbn [asked respond]. apply Hresp, Hmodel. }
  destruct (retry_exhausts (analyzePose JSON_parse apiKey poseImage)
              "generatePoseDescription" 3 CONFIG.RETRY_DELAY_MS
              (mkWorld b tr h))
    as (e' & w' & evs & Hrun & Hlast & Hext & Htrace & Hsched).
  { lia. } { intros k _. rewrite Hout. reflexivity. }
  cbn [ext trace] in *. rewrite Hout in Hlast.
  injection Hlast as <-.
  exists w', evs. split; [exact Hrun |].
  split; [| split; [exact Htrace | exact Hsched]].
  rewrite Hext.
  apply (state_after_asked _ (analysis_request apiKey poseImage)).
  intros a s. apply analyzePose_asked.
Qed.

Lemma generatePoseDescription_retries_unparsable_text_witness :
  (forall history request,
      req_model request = CONFIG.POSE_ANALYSIS_MODEL ->
      respond (ext (sample_world garbled_backend None)) history request
      = Responds (mkResponse (Some "not json") None))
  /\ text (mkResponse (Some "not json") None) = Some "not json"
  /\ truthy (Some "not json") = true
  /\ sample_JSON_parse (trim "not json")
     = Throw (JsError "SyntaxError" "Unexpected token")
  /\ exists w' evs,
      generatePoseDescription sample_JSON_parse "gemini-key"
                              sample_pose_image
                              (sample_world garbled_backend None)
      = (Throw (JsError "SyntaxError" "Unexpected token"), w')
      /\ ext w'
         = asked (ext (sample_world garbled_backend None))
                 (repeat (analysis_request "gemini-key" sample_pose_image) 3)
      /\ trace w' = trace (sample_world garbled_backend None) ++ evs
      /\ filter is_call_or_sleep evs
         = [EvCall "generatePoseDescription" 1; EvSleep 2000;
            EvCall "generatePoseDescription" 2; EvSleep 2000;
            EvCall "generatePoseDescription" 3].
Proof.
  split; [intros history request Hmodel; reflexivity |].
  split; [reflexivity |]. split; [reflexivity |]. split; [reflexivity |].
  apply (generatePoseDescription_retries_unparsable_text
           sample_JSON_parse "gemini-key" sample_pose_image
           (sample_world garbled_backend None)
           (mkResponse (Some "not json") None) "not json"
           (JsError "SyntaxError" "Unexpected token"));
    [intros history request Hmodel; reflexivity | reflexivity | reflexivity
     | reflexivity].
Defined.



Lemma first_inline_data_step part rest :
  first_inline_data (part :: rest)
  = match carried part with
    | Some d => Some d
    | None => first_inline_data rest
    end.
Proof.
  unfold carried. cbn [first_inline_data].
  destruct (inlineData part) as [blob |]; [| reflexivity].
  destruct (blob_data blob) as [[| c s] |]; reflexivity.
Qed.

Lemma carried_not_empty part d : carried part = Some d -> d <> "".
Proof.
  unfold carried. destruct (inlineData part) as [blob |]; [| discriminate].
  destruct (blob_data blob) as [[| c s] |]; cbn [truthy]; try discriminate.
  intros H. injection H as <-. discriminate.
Qed.

(** X6: the scan of the parts returns the data of the first part that has
    inline data which is not the empty string: parts without inline data,
    without [data], or with an empty [data], are passed over; it finds
    nothing exactly when no part has such data. *)
Theorem first_inline_data_is_first_nonempty :
  forall (ps : list Part),
    (forall d,
        first_inline_data ps = Some d
        <-> exists before part after,
            ps = before ++ part :: after
            /\ Forall (fun p => carried p = None) before
            /\ carried part = Some d
            /\ d <> "")
    /\ (first_inline_data ps = None
        <-> Forall (fun p => carried p = None) ps).
Proof.
  induction ps as [| part rest [IHsome IHnone]].
  - split; [intros d | ]; split.
    + discriminate.
    + intros (before & part & after & Heq & _).
      destruct before; discriminate.
    + constructor.
    + reflexivity.
  - split; [intros d |]; rewrite first_inline_data_step;
      destruct (carried part) as [d0 |] eqn:Hpart; split.
    + intros H. injection H as <-.
      exists [], part, rest. repeat split;
        [constructor | exact Hpart | exact (carried_not_empty _ _ Hpart)].
    + intros (before & part' & after & Heq & Hbefore & Hcarried & _).
      destruct before as [| first before]; cbn [app] in Heq;
        injection Heq as <- Hrest.
      * congruence.
      * inversion Hbefore; congruence.
    + intros H. apply IHsome in H.
      destruct H as (before & part' & after & -> & Hbefore & Hcarried & Hne).
      exists (part :: before), part', after.
      repeat split; [constructor; assumption | exact Hcarried | exact Hne].
    + intros (before & part' & after & Heq & Hbefore & Hcarried & Hne).
      destruct before as [| first before]; cbn [app] in Heq;
        injection Heq as <- Hrest.
      * congruence.
      * apply IHsome. exists before, part', after.
        inversion Hbefore; subst. repeat split; assumption.
    + discriminate.
    + intros H. inversion H; congruence.
    + intros H. constructor; [exact Hpart | apply IHnone, H].
    + intros H. inversion H; subst. apply IHnone. assumption.
Qed.

(** ** The pipeline, span by span and request by request *)

Lemma retry_not_span_event name e :
  is_retry_event name e = true -> is_span_event e = false.
Proof. destruct e; cbn; congruence. Qed.

Lemma delivery_not_span_event e :
  is_delivery_event e = true -> is_span_event e = false.
Proof. destruct e; cbn; congruence. Qed.

Lemma delivery_not_call_or_sleep e :
  is_delivery_event e = true -> is_call_or_sleep e = false.
Proof. destruct e; cbn; congruence. Qed.

Section PipelineViews.
Variable JSON_parse : string -> Result json.

Ltac norm_spans :=
  repeat match goal with
    | |- context [count_events is_span_start (?t ++ [?e])] =>
        first [ rewrite (count_snoc_other is_span_start t e) by reflexivity
              | rewrite (count_snoc_hit is_span_start t e) by reflexivity ]
    | H : forallb (is_retry_event ?n) ?evs = true
      |- context [count_events is_span_start (?t ++ ?evs)] =>
        rewrite (count_after_class _ is_span_start t evs H (retry_not_span n))
    end.

Ltac drop_retry_events :=
  repeat match goal with
    | H : forallb (is_retry_event ?n) ?evs = true
      |- context [filter is_span_event ?evs] =>
        rewrite (filter_nil_of_class _ is_span_event evs H
                   (retry_not_span_event n))
    | H : forallb (is_retry_event ?n) ?evs = true
      |- context [flat_map ?f ?evs] =>
        rewrite (flat_map_nil_of_class _ f evs H (retry_not_http n))
    end.

Ltac drop_delivery_events :=
  repeat match goal with
    | H : forallb is_delivery_event ?evs = true
      |- context [filter is_span_event ?evs] =>
        rewrite (filter_nil_of_class _ is_span_event evs H
                   delivery_not_span_event)
    | H : forallb is_delivery_event ?evs = true
      |- context [filter is_call_or_sleep ?evs] =>
        rewrite (filter_nil_of_class _ is_call_or_sleep evs H
                   delivery_not_call_or_sleep)
    end.

Lemma steps_view_analysis_failed apiKey userImage poseImage start metrics
      parent b e bA evsA :
  (forall tr h,
      generatePoseDescription JSON_parse apiKey poseImage (mkWorld b tr h)
      = (Throw e, mkWorld bA (tr ++ evsA) h)) ->
  forallb (is_retry_event "generatePoseDescription") evsA = true ->
  forall tr h,
    count_events is_span_start tr = Datatypes.S parent ->
    exists evs,
      pipeline_steps JSON_parse apiKey userImage poseImage start metrics
                     parent (mkWorld b tr h)
      = (Throw e, mkWorld bA (tr ++ evs) h)
      /\ filter is_span_event evs = [analysis_started parent]
      /\ filter is_call_or_sleep evs = filter is_call_or_sleep evsA
      /\ http_requests evs = [].
Proof.
  intros HrunA HclsA tr h Hc. eexists.
  unfold pipeline_steps.
  cbv [bind call exec startSpan console_log console emit ext trace host].
  rewrite HrunA. cbv beta iota. norm_spans. rewrite Hc.
  split; [rewrite <- !app_assoc; reflexivity |].
  unfold http_requests.
  rewrite !filter_app, !flat_map_app. drop_retry_events.
  split; [| split]; reflexivity.
Qed.

Lemma steps_view_generation_failed apiKey userImage poseImage start metrics
      parent b d pd bA evsA e bG evsG :
  (forall tr h,
      generatePoseDescription JSON_parse apiKey poseImage (mkWorld b tr h)
      = (Return (d, pd), mkWorld bA (tr ++ evsA) h)) ->
  forallb (is_retry_event "generatePoseDescription") evsA = true ->
  (forall tr h,
      generatePoseImage apiKey userImage poseImage d pd (mkWorld bA tr h)
      = (Throw e, mkWorld bG (tr ++ evsG) h)) ->
  forallb (is_retry_event "generatePoseImage") evsG = true ->
  forall tr h,
    count_events is_span_start tr = Datatypes.S parent ->
    exists evs,
      pipeline_steps JSON_parse apiKey userImage poseImage start metrics
                     parent (mkWorld b tr h)
      = (Throw e, mkWorld bG (tr ++ evs) h)
      /\ filter is_span_event evs
         = [analysis_started parent;
            EvSetTag (Datatypes.S parent) "llm.status" (TagStr "success");
            EvFinish (Datatypes.S parent);
            generation_started parent]
      /\ filter is_call_or_sleep evs
         = filter is_call_or_sleep evsA ++ filter is_call_or_sleep evsG
      /\ http_requests evs = [].
Proof.
  intros HrunA HclsA HrunG HclsG tr h Hc. eexists.
  unfold pipeline_steps.
  cbv [bind call exec startSpan setTag finish console_log console emit
       ext trace host].
  rewrite HrunA. cbv beta iota.
  rewrite HrunG. cbv beta iota. norm_spans. rewrite Hc.
  split; [rewrite <- !app_assoc; reflexivity |].
  unfold http_requests.
  rewrite !filter_app, !flat_map_app. drop_retry_events.
  split; [reflexivity |].
  split; [| reflexivity].
  cbn [filter is_call_or_sleep app]. rewrite ?app_nil_r. reflexivity.
Qed.

Lemma steps_view_succeeded apiKey userImage poseImage start metrics
      parent b d pd bA evsA image bG evsG :
  (forall tr h,
      generatePoseDescription JSON_parse apiKey poseImage (mkWorld b tr h)
      = (Return (d, pd), mkWorld bA (tr ++ evsA) h)) ->
  forallb (is_retry_event "generatePoseDescription") evsA = true ->
  (forall tr h,
      generatePoseImage apiKey userImage poseImage d pd (mkWorld bA tr h)
      = (Return image, mkWorld bG (tr ++ evsG) h)) ->
  forallb (is_retry_event "generatePoseImage") evsG = true ->
  forall tr h,
    count_events is_span_start tr = Datatypes.S parent ->
    exists evs latencyMs,
      pipeline_steps JSON_parse apiKey userImage poseImage start metrics
                     parent (mkWorld b tr h)
      = (Return (succeeded image d pd), mkWorld bG (tr ++ evs) h)
      /\ filter is_span_event evs
         = [analysis_started parent;
            EvSetTag (Datatypes.S parent) "llm.status" (TagStr "success");
            EvFinish (Datatypes.S parent);
            generation_started parent;
            EvSetTag (Datatypes.S (Datatypes.S parent)) "llm.status"
                     (TagStr "success");
            EvFinish (Datatypes.S (Datatypes.S parent));
            EvSetTag parent "llm.status" (TagStr "success");
            EvSetTag parent "llm.latency_ms" (TagNum latencyMs)]
      /\ filter is_call_or_sleep evs
         = filter is_call_or_sleep evsA ++ filter is_call_or_sleep evsG
      /\ (key_present h = false -> http_requests evs = [])
      /\ (forall apiKey',
             DD_API_KEY h = Some apiKey' -> key_present h = true ->
             exists t0 t1 t2,
               http_requests evs
               = success_requests h apiKey' metrics t0 t1 t2)
      /\ (exists m,
             (count_events is_date_now tr <= m)%nat
             /\ latencyMs = clock h m - start).
Proof.
  intros HrunA HclsA HrunG HclsG tr h Hc.
  unfold pipeline_steps.
  cbv [bind call exec Date_now startSpan setTag finish recordGeneration
       console_log console emit ext trace host].
  rewrite HrunA. cbv beta iota.
  rewrite HrunG. cbv beta iota.
  match goal with
  | |- context [recordSuccess metrics (mkWorld bG ?t h)] =>
      destruct (recordSuccess_run metrics bG t h)
        as (evsR & HrunR & HclsR & Hnokey & Hkey & _)
  end.
  rewrite HrunR. cbv beta iota. norm_spans. rewrite Hc.
  eexists _, _. split; [rewrite <- !app_assoc; reflexivity |].
  unfold http_requests in *.
  rewrite !filter_app, !flat_map_app. drop_retry_events.
  cbn [filter flat_map is_span_event is_call_or_sleep app].
  drop_delivery_events.
  rewrite ?app_nil_r.
  split; [reflexivity |]. split; [reflexivity |].
  split; [assumption |]. split; [assumption |].
  eexists. split; [| reflexivity].
  rewrite !count_events_app. lia.
Qed.

Lemma failed_view start metrics parent e (b : Backend) tr h :
  exists evs,
    pipeline_failed start metrics parent e (mkWorld b tr h)
    = (Return (failed (errorMessageOf e)), mkWorld b (tr ++ evs) h)
    /\ filter is_span_event evs = error_tags parent (errorMessageOf e)
    /\ filter is_call_or_sleep evs = []
    /\ (key_present h = false -> http_requests evs = [])
    /\ (forall apiKey,
           DD_API_KEY h = Some apiKey -> key_present h = true ->
           exists t0 t1 t2,
             http_requests evs
             = error_requests h apiKey metrics (errorMessageOf e) t0 t1 t2).
Proof.
  unfold pipeline_failed.
  cbv [bind call exec Date_now setTag recordGeneration console_log console
       emit ext trace host].
  match goal with
  | |- context [recordError metrics ?m (mkWorld b ?t h)] =>
      destruct (recordError_run metrics m b t h)
        as (evsR & HrunR & HclsR & Hnokey & Hkey & _)
  end.
  rewrite HrunR. cbv beta iota.
  eexists. split; [rewrite <- !app_assoc; reflexivity |].
  unfold http_requests in *.
  rewrite !filter_app, !flat_map_app.
  cbn [filter flat_map is_span_event is_call_or_sleep app].
  drop_delivery_events.
  rewrite ?app_nil_r.
  split; [reflexivity |]. split; [reflexivity |].
  split; assumption.
Qed.

Lemma prelude_spans h tr :
  filter is_span_event (prelude_events h tr)
  = [parent_started (count_events is_span_start tr)]
  /\ filter is_call_or_sleep (prelude_events h tr) = []
  /\ http_requests (prelude_events h tr) = [].
Proof. split; [| split]; reflexivity. Qed.

(** Every call of [generateWithPose] follows one of the three courses,
    which the backend alone decides. *)
Lemma generateWithPose_course apiKey userImage poseImage (b : Backend) :
  exists analyses c,
    course_bounds analyses c
    /\ forall tr h,
      exists evs latencyMs,
        generateWithPose JSON_parse apiKey userImage poseImage
                         (mkWorld b tr h)
        = (Return (course_result c),
           mkWorld (asked b (course_requests apiKey userImage poseImage
                                             analyses c))
                   (tr ++ evs) h)
        /\ filter is_span_event evs
           = course_spans (count_events is_span_start tr) latencyMs c
        /\ filter is_call_or_sleep evs = course_schedule analyses c
        /\ (key_present h = false -> http_requests evs = [])
        /\ (forall key,
               DD_API_KEY h = Some key -> key_present h = true ->
               exists t0 t1 t2,
                 http_requests evs
                 = course_reports h key (pipeline_metrics h tr) c t0 t1 t2)
        /\ (exists m,
               (count_events is_date_now tr <= m)%nat
               /\ latencyMs
                  = clock h m - clock h (count_events is_date_now tr)).
Proof.
  destruct (generatePoseDescription_detailed JSON_parse apiKey poseImage b)
    as (kA & evsA & HkA & HrunA & HclsA & HschedA & HearlyA).
  destruct (outcome_of_attempt (analyzePose JSON_parse apiKey poseImage) kA b)
    as [[d pd] | e] eqn:HoutA.
  - set (bA := asked b (repeat (analysis_request apiKey poseImage) kA)) in *.
    destruct (generatePoseImage_detailed apiKey userImage poseImage d pd bA)
      as (kG & evsG & HkG & HrunG & HclsG & HschedG & HearlyG).
    destruct (outcome_of_attempt
                (generateImage apiKey userImage poseImage d pd) kG bA)
      as [image | e] eqn:HoutG.
    + exists kA, (Succeeded d pd kG image).
      split; [split; assumption |].
      intros tr h.
      rewrite (generateWithPose_unfold JSON_parse).
      unfold try_finally, try_catch.
      destruct (prelude_view (count_events is_span_start tr) h tr)
        as (_ & _ & _ & Hspans).
      destruct (prelude_spans h tr) as (Hs0 & Hc0 & Hh0).
      destruct (steps_view_succeeded
                  apiKey userImage poseImage
                  (clock h (count_events is_date_now tr))
                  (pipeline_metrics h tr) (count_events is_span_start tr)
                  b d pd bA evsA image _ evsG HrunA HclsA HrunG HclsG
                  (tr ++ prelude_events h tr) h Hspans)
        as (evs1 & latencyMs & Hsteps & Hs1 & Hc1 & Hn1 & Hk1 & m & Hm & Hlat).
      rewrite Hsteps. cbv [exec finish emit ext trace host].
      exists (prelude_events h tr ++ evs1
                ++ [EvFinish (count_events is_span_start tr)]), latencyMs.
      split.
      { rewrite <- !app_assoc. unfold bA, course_requests.
        rewrite asked_asked. reflexivity. }
      rewrite !http_requests_app, Hh0.
      rewrite !filter_app, Hs0, Hs1, Hc0, Hc1, HschedA, HschedG.
      cbn [filter is_span_event is_call_or_sleep app course_schedule
           course_reports http_requests flat_map].
      rewrite ?app_nil_r.
      split; [reflexivity |]. split; [reflexivity |].
      split; [assumption |]. split; [assumption |].
      exists m. split; [| exact Hlat].
      rewrite count_events_app in Hm. lia.
    + assert (kG = 3%nat) as ->.
      { destruct (Nat.eq_dec kG 3) as [-> | Hne]; [reflexivity |].
        assert (Hlt : (kG < 3)%nat) by lia.
        apply HearlyG in Hlt. discriminate. }
      exists kA, (GenerationFailed d pd 3 e).
      split; [split; [assumption | reflexivity] |].
      intros tr h.
      rewrite (generateWithPose_unfold JSON_parse).
      unfold try_finally, try_catch.
      destruct (prelude_view (count_events is_span_start tr) h tr)
        as (_ & _ & _ & Hspans).
      destruct (prelude_spans h tr) as (Hs0 & Hc0 & Hh0).
      destruct (steps_view_generation_failed
                  apiKey userImage poseImage
                  (clock h (count_events is_date_now tr))
                  (pipeline_metrics h tr) (count_events is_span_start tr)
                  b d pd bA evsA e _ evsG HrunA HclsA HrunG HclsG
                  (tr ++ prelude_events h tr) h Hspans)
        as (evs1 & Hsteps & Hs1 & Hc1 & Hh1).
      rewrite Hsteps.
      match goal with
      | |- context [pipeline_failed ?s ?m ?p e (mkWorld ?bb ?t h)] =>
          destruct (failed_view s m p e bb t h)
            as (evs2 & Hfail & Hs2 & Hc2 & Hn2 & Hk2)
      end.
      rewrite Hfail. cbv [exec finish emit ext trace host].
      exists (prelude_events h tr ++ evs1 ++ evs2
                ++ [EvFinish (count_events is_span_start tr)]), 0.
      split.
      { rewrite <- !app_assoc. unfold bA, course_requests.
        rewrite asked_asked. reflexivity. }
      rewrite !http_requests_app, Hh0, Hh1.
      rewrite !filter_app, Hs0, Hs1, Hs2, Hc0, Hc1, Hc2, HschedA, HschedG.
      cbn [filter is_span_event is_call_or_sleep app course_schedule
           course_reports http_requests flat_map].
      rewrite ?app_nil_r.
      split; [reflexivity |]. split; [reflexivity |].
      split; [assumption |]. split; [assumption |].
      exists (count_events is_date_now tr).
      split; [lia | symmetry; apply Z.sub_diag].
  - assert (kA = 3%nat) as ->.
    { destruct (Nat.eq_dec kA 3) as [-> | Hne]; [reflexivity |].
      assert (Hlt : (kA < 3)%nat) by lia.
      apply HearlyA in Hlt. discriminate. }
    exists 3%nat, (AnalysisFailed e).
    split; [split; [lia | reflexivity] |].
    intros tr h.
    rewrite (generateWithPose_unfold JSON_parse).
    unfold try_finally, try_catch.
    destruct (prelude_view (count_events is_span_start tr) h tr)
      as (_ & _ & _ & Hspans).
    destruct (prelude_spans h tr) as (Hs0 & Hc0 & Hh0).
    destruct (steps_view_analysis_failed
                apiKey userImage poseImage
                (clock h (count_events is_date_now tr))
                (pipeline_metrics h tr) (count_events is_span_start tr)
                b e _ evsA HrunA HclsA
                (tr ++ prelude_events h tr) h Hspans)
      as (evs1 & Hsteps & Hs1 & Hc1 & Hh1).
    rewrite Hsteps.
    match goal with
    | |- context [pipeline_failed ?s ?m ?p e (mkWorld ?bb ?t h)] =>
        destruct (failed_view s m p e bb t h)
          as (evs2 & Hfail & Hs2 & Hc2 & Hn2 & Hk2)
    end.
    rewrite Hfail. cbv [exec finish emit ext trace host].
    exists (prelude_events h tr ++ evs1 ++ evs2
              ++ [EvFinish (count_events is_span_start tr)]), 0.
    split.
    { rewrite <- !app_assoc. unfold course_requests.
      rewrite app_nil_r. reflexivity. }
    rewrite !http_requests_app, Hh0, Hh1.
    rewrite !filter_app, Hs0, Hs1, Hs2, Hc0, Hc1, Hc2, HschedA.
    cbn [filter is_span_event is_call_or_sleep app course_schedule
         course_reports http_requests flat_map].
    rewrite ?app_nil_r.
    split; [reflexivity |]. split; [reflexivity |].
    split; [assumption |]. split; [assumption |].
    exists (count_events is_date_now tr).
    split; [lia | symmetry; apply Z.sub_diag].
Qed.
End PipelineViews.

Lemma sleeps_of_attempts name delayMs n :
  filter is_sleep (attempts_schedule name delayMs n)
  = repeat (EvSleep delayMs) (n - 1).
Proof.
  unfold attempts_schedule.
  rewrite filter_app, sleeps_of_schedule. cbn [filter is_sleep].
  apply app_nil_r.
Qed.

Lemma sleeps_among_calls evs :
  filter is_sleep (filter is_call_or_sleep evs) = filter is_sleep evs.
Proof.
  apply filter_implied. intros [] Hx; (discriminate || reflexivity).
Qed.

Lemma started_of_span_events evs :
  started_spans (filter is_span_event evs) = started_spans evs.
Proof.
  unfold started_spans. induction evs as [| e evs IH]; [reflexivity |].
  destruct e; cbn [filter is_span_event flat_map app]; rewrite IH;
    reflexivity.
Qed.

Lemma finished_of_span_events evs :
  finished_spans (filter is_span_event evs) = finished_spans evs.
Proof.
  unfold finished_spans. induction evs as [| e evs IH]; [reflexivity |].
  destruct e; cbn [filter is_span_event flat_map app]; rewrite IH;
    reflexivity.
Qed.





(** X8: a call of [generateWithPose] that succeeds finishes the three spans
    it starts, the children before the parent; a call that fails finishes
    its parent span but never the span of the step that failed. *)
Theorem generateWithPose_failed_step_span_stays_open :
  forall (JSON_parse : string -> Result json) (apiKey : string)
         (userImage poseImage : ImageData) (w : World Backend),
    exists evs,
      trace (snd (generateWithPose JSON_parse apiKey userImage poseImage w))
      = trace w ++ evs
      /\ let p := count_events is_span_start (trace w) in
         match fst (generateWithPose JSON_parse apiKey userImage poseImage w)
         with
         | Return result =>
             if success result
             then started_spans evs = [p; Datatypes.S p;
                                       Datatypes.S (Datatypes.S p)]
                  /\ finished_spans evs = [Datatypes.S p;
                                           Datatypes.S (Datatypes.S p); p]
             else (started_spans evs = [p; Datatypes.S p]
                   /\ finished_spans evs = [p])
                  \/ (started_spans evs = [p; Datatypes.S p;
                                           Datatypes.S (Datatypes.S p)]
                      /\ finished_spans evs = [Datatypes.S p; p])
         | Throw _ => False
         end.
Proof.
  intros JSON_parse apiKey userImage poseImage [b tr h].
  destruct (generateWithPose_course JSON_parse apiKey userImage poseImage b)
    as (analyses & c & _ & Hrun).
  destruct (Hrun tr h) as (evs & latencyMs & -> & Hspans & _).
  exists evs. cbn [fst snd trace]. split; [reflexivity |].
  cbv zeta.
  rewrite <- (started_of_span_events evs), <- (finished_of_span_events evs).
  rewrite Hspans.
  destruct c as [e | d pd sent e | d pd sent image];
    cbn [course_result failed succeeded success course_spans].
  - left. split; reflexivity.
  - right. split; reflexivity.
  - split; reflexivity.
Qed.


(** X10: the attempts and the waits of a call of [generateWithPose]: the
    attempts of the analysis, numbered from 1 and separated by waits, then
    those of the generation if the analysis returned; every wait lasts
    [RETRY_DELAY_MS] and no call waits more than four times. *)
Theorem generateWithPose_attempts_and_waits :
  forall (JSON_parse : string -> Result json) (apiKey : string)
         (userImage poseImage : ImageData) (w : World Backend),
    exists analyses c evs waits,
      course_bounds analyses c
      /\ generateWithPose JSON_parse apiKey userImage poseImage w
         = (Return (course_result c),
            mkWorld (asked (ext w)
                           (course_requests apiKey userImage poseImage
                                            analyses c))
                    (trace w ++ evs) (host w))
      /\ filter is_call_or_sleep evs = course_schedule analyses c
      /\ filter is_sleep evs = repeat (EvSleep CONFIG.RETRY_DELAY_MS) waits
      /\ (waits <= 4)%nat.
Proof.
  intros JSON_parse apiKey userImage poseImage [b tr h].
  destruct (generateWithPose_course JSON_parse apiKey userImage poseImage b)
    as (analyses & c & Hb & Hrun).
  destruct (Hrun tr h) as (evs & latencyMs & Heq & _ & Hsched & _).
  exists analyses, c, evs.
  exists (analyses - 1
          + match c with
            | AnalysisFailed _ => 0
            | GenerationFailed _ _ sent _ | Succeeded _ _ sent _ => sent - 1
            end)%nat.
  cbn [ext trace host].
  split; [exact Hb |]. split; [exact Heq |]. split; [exact Hsched |].
  split.
  - rewrite <- sleeps_among_calls, Hsched. unfold course_schedule.
    rewrite filter_app, sleeps_of_attempts, repeat_app.
    destruct c; rewrite ?sleeps_of_attempts; reflexivity.
  - destruct Hb as [Ha Hc]. destruct c; lia.
Qed.



(** X13: with a clock that never goes back, the latency that a call of
    [generateWithPose] tags its parent span with is not negative. *)
Theorem generateWithPose_latency_tag_not_negative :
  forall (JSON_parse : string -> Result json) (apiKey : string)
         (userImage poseImage : ImageData) (w : World Backend),
    (forall m n, (m <= n)%nat -> clock (host w) m <= clock (host w) n) ->
    exists evs,
      trace (snd (generateWithPose JSON_parse apiKey userImage poseImage w))
      = trace w ++ evs
      /\ forall span latencyMs,
        In (EvSetTag span "llm.latency_ms" (TagNum latencyMs)) evs ->
        0 <= latencyMs.
Proof.
  intros JSON_parse apiKey userImage poseImage [b tr h]. cbn [host].
  intros Hmono.
  destruct (generateWithPose_course JSON_parse apiKey userImage poseImage b)
    as (analyses & c & _ & Hrun).
  destruct (Hrun tr h)
    as (evs & lat & -> & Hspans & _ & _ & _ & m & Hm & Hlat).
  exists evs. cbn [snd trace]. split; [reflexivity |].
  intros span latencyMs Hin.
  assert (Hin' : In (EvSetTag span "llm.latency_ms" (TagNum latencyMs))
                    (filter is_span_event evs))
    by (apply filter_In; split; [exact Hin | reflexivity]).
  rewrite Hspans in Hin'.
  destruct c as [e | d pd sent e | d pd sent image];
    cbn [course_spans] in Hin';
    unfold spans_analysis_failed, spans_generation_failed, spans_succeeded,
      error_tags, parent_started, analysis_started, generation_started
      in Hin';
    cbn [In app] in Hin';
    repeat (destruct Hin' as [Hin' | Hin']; [try discriminate |]);
    try contradiction.
  injection Hin' as _ Heq. subst latencyMs. rewrite Hlat.
  specialize (Hmono _ _ Hm). lia.
Qed.

Lemma generateWithPose_latency_tag_not_negative_witness :
  exists evs,
    trace (snd (generateWithPose sample_JSON_parse "gemini-key"
                                 sample_user_image sample_pose_image
                                 (sample_world obliging_backend None)))
    = trace (sample_world obliging_backend None) ++ evs
    /\ forall span latencyMs,
      In (EvSetTag span "llm.latency_ms" (TagNum latencyMs)) evs ->
      0 <= latencyMs.
Proof.
  apply (generateWithPose_latency_tag_not_negative
           sample_JSON_parse "gemini-key" sample_user_image sample_pose_image
           (sample_world obliging_backend None)).
  intros m n Hmn. cbn. lia.
Defined.

(** ** The callable function *)

Section HandlerFacts.
Variable JSON_parse : string -> Result json.
Variable apiKey : string.
Variable tracer_has_flush : bool.

Lemma generateWithAI_well_formed request uid userImage poseImage
      (b : Backend) :
  request_auth request = Some uid ->
  request_userImage (request_data request) = Some userImage ->
  request_poseImage (request_data request) = Some poseImage ->
  exists analyses c,
    course_bounds analyses c
    /\ forall tr h n,
      exists evs waits,
        generateWithAI JSON_parse apiKey tracer_has_flush request
                       (mkInvocation (mkWorld b tr h) n)
        = (outcome_of_course c,
           mkInvocation
             (mkWorld (asked b (course_requests apiKey userImage poseImage
                                                analyses c))
                      (tr ++ evs) h)
             (n + flush_calls tracer_has_flush (outcome_of_course c)))
        /\ filter is_sleep evs
           = repeat (EvSleep CONFIG.RETRY_DELAY_MS) waits
             ++ flush_wait tracer_has_flush (outcome_of_course c)
        /\ (waits <= 4)%nat.
Proof.
  intros Hauth Hu Hp.
  destruct (generateWithPose_course JSON_parse apiKey userImage poseImage b)
    as (analyses & c & Hb & Hrun).
  exists analyses, c. split; [exact Hb |].
  intros tr h n.
  unfold generateWithAI, flush_traces. rewrite Hauth, Hu, Hp.
  cbv [console_log console sleep emit ext trace host pipeline flushes].
  destruct (Hrun (((tr ++ [EvConsole LOG "[generateWithAI] Request received"
                                     None])
                     ++ [EvConsole LOG
                                   "[generateWithAI] Starting AI generation..."
                                   None])) h)
    as (evs & latencyMs & -> & _ & Hsched & _).
  assert (Hsleeps :
            filter is_sleep evs
            = repeat (EvSleep CONFIG.RETRY_DELAY_MS)
                     (analyses - 1
                      + match c with
                        | AnalysisFailed _ => 0
                        | GenerationFailed _ _ sent _
                        | Succeeded _ _ sent _ => sent - 1
                        end)).
  { rewrite <- sleeps_among_calls, Hsched. unfold course_schedule.
    rewrite filter_app, sleeps_of_attempts, repeat_app.
    destruct c; rewrite ?sleeps_of_attempts; reflexivity. }
  assert (Hwaits :
            (analyses - 1
             + match c with
               | AnalysisFailed _ => 0
               | GenerationFailed _ _ sent _
               | Succeeded _ _ sent _ => sent - 1
               end <= 4)%nat).
  { destruct Hb as [Ha Hc]. destruct c; lia. }
  destruct c as [e | d pd sent e | d pd sent image];
    cbn [course_result failed succeeded success error generatedImage
         poseDescription outcome_of_course flush_calls flush_wait];
    cbv beta iota.
  - eexists _, _. split; [| split; [| exact Hwaits]].
    + rewrite Nat.add_0_r, <- !app_assoc. reflexivity.
    + rewrite !filter_app, Hsleeps. cbn [filter is_sleep app].
      reflexivity.
  - eexists _, _. split; [| split; [| exact Hwaits]].
    + rewrite Nat.add_0_r, <- !app_assoc. reflexivity.
    + rewrite !filter_app, Hsleeps. cbn [filter is_sleep app].
      reflexivity.
  - destruct tracer_has_flush;
      cbv [emit ext trace host pipeline flushes];
      (eexists _, _; split; [| split; [| exact Hwaits]]);
      [ rewrite Nat.add_1_r, <- !app_assoc; reflexivity
      | rewrite !filter_app, Hsleeps; cbn [filter is_sleep app];
        reflexivity
      | rewrite Nat.add_0_r, <- !app_assoc; reflexivity
      | rewrite !filter_app, Hsleeps; cbn [filter is_sleep app];
        reflexivity ].
Qed.

Lemma well_formed_cases request :
  (exists uid userImage poseImage,
      request_auth request = Some uid
      /\ request_userImage (request_data request) = Some userImage
      /\ request_poseImage (request_data request) = Some poseImage
      /\ well_formed request = true)
  \/ (well_formed request = false
      /\ (request_auth request = None
          \/ (request_auth request <> None
              /\ (request_userImage (request_data request) = None
                  \/ request_poseImage (request_data request) = None)))).
Proof.
  unfold well_formed.
  destruct (request_auth request) as [uid |];
    [| right; split; [reflexivity | left; reflexivity]].
  destruct (request_userImage (request_data request)) as [u |];
    [| right; split; [reflexivity
                     | right; split; [discriminate | left; reflexivity]]].
  destruct (request_poseImage (request_data request)) as [p |];
    [| right; split; [reflexivity
                     | right; split; [discriminate | right; reflexivity]]].
  left. exists uid, u, p. repeat split; reflexivity.
Qed.

Lemma generateWithAI_ill_formed request i :
  well_formed request = false ->
  generateWithAI JSON_parse apiKey tracer_has_flush request i
  = (Rejected
       (match request_auth request with
        | None => HttpsError "unauthenticated" "User must be logged in"
        | Some _ => HttpsError "invalid-argument" "Missing image data"
        end),
     mkInvocation
       (console_log "[generateWithAI] Request received" (pipeline i))
       (flushes i)).
Proof.
  unfold well_formed, generateWithAI.
  destruct (request_auth request); [| reflexivity].
  destruct (request_userImage (request_data request));
    [| reflexivity].
  destruct (request_poseImage (request_data request));
    [discriminate | reflexivity].
Qed.
End HandlerFacts.


(** X15: a request that fails one of the two checks is rejected before
    any work: the backend is not asked, the only event is the first
    console line, the tracer is not flushed, and the check of the caller
    comes before the check of the images. *)
Theorem generateWithAI_rejects_before_any_work :
  forall (JSON_parse : string -> Result json) (apiKey : string)
         (tracer_has_flush : bool) (request : CallableRequest)
         (i : Invocation),
    well_formed request = false ->
    exists code message,
      fst (generateWithAI JSON_parse apiKey tracer_has_flush request i)
      = Rejected (HttpsError code message)
      /\ (code = "unauthenticated" <-> request_auth request = None)
      /\ ext (pipeline (snd (generateWithAI JSON_parse apiKey
                                            tracer_has_flush request i)))
         = ext (pipeline i)
      /\ trace (pipeline (snd (generateWithAI JSON_parse apiKey
                                              tracer_has_flush request i)))
         = trace (pipeline i)
             ++ [EvConsole LOG "[generateWithAI] Request received" None]
      /\ flushes (snd (generateWithAI JSON_parse apiKey tracer_has_flush
                                      request i))
         = flushes i.
Proof.
  intros JSON_parse apiKey tracer_has_flush request i Hwf.
  rewrite (generateWithAI_ill_formed JSON_parse apiKey tracer_has_flush
             request i Hwf).
  cbn [fst snd pipeline flushes].
  destruct (request_auth request) as [uid |].
  - exists "invalid-argument", "Missing image data".
    split; [reflexivity |].
    split; [split; discriminate |].
    repeat split; reflexivity.
  - exists "unauthenticated", "User must be logged in".
    split; [reflexivity |].
    split; [split; reflexivity |].
    repeat split; reflexivity.
Qed.

Lemma generateWithAI_rejects_before_any_work_witness :
  exists code message,
    fst (generateWithAI sample_JSON_parse "gemini-key" true
           (mkCallableRequest
              None (mkGenerateWithAIRequest (Some sample_user_image) None))
           (mkInvocation (sample_world obliging_backend None) 0))
    = Rejected (HttpsError code message)
    /\ (code = "unauthenticated"
        <-> request_auth
              (mkCallableRequest
                 None (mkGenerateWithAIRequest (Some sample_user_image) None))
            = None)
    /\ ext (pipeline
              (snd (generateWithAI sample_JSON_parse "gemini-key" true
                      (mkCallableRequest
                         None
                         (mkGenerateWithAIRequest (Some sample_user_image)
                                                  None))
                      (mkInvocation (sample_world obliging_backend None) 0))))
       = ext (pipeline (mkInvocation (sample_world obliging_backend None) 0))
    /\ trace (pipeline
                (snd (generateWithAI sample_JSON_parse "gemini-key" true
                        (mkCallableRequest
                           None
                           (mkGenerateWithAIRequest (Some sample_user_image)
                                                    None))
                        (mkInvocation (sample_world obliging_backend None)
                                      0))))
       = trace (pipeline (mkInvocation (sample_world obliging_backend None)
                                       0))
           ++ [EvConsole LOG "[generateWithAI] Request received" None]
    /\ flushes
         (snd (generateWithAI sample_JSON_parse "gemini-key" true
                 (mkCallableRequest
                    None
                    (mkGenerateWithAIRequest (Some sample_user_image) None))
                 (mkInvocation (sample_world obliging_backend None) 0)))
       = flushes (mkInvocation (sample_world obliging_backend None) 0).
Proof.
  apply (generateWithAI_rejects_before_any_work
           sample_JSON_parse "gemini-key" true
           (mkCallableRequest
              None (mkGenerateWithAIRequest (Some sample_user_image) None))
           (mkInvocation (sample_world obliging_backend None) 0)).
  reflexivity.
Defined.

(** X16: [generateWithAI] flushes the tracer once when it fulfils the
    request and the tracer has a [flush], and never when it rejects; its
    waits are those of the retries, at most four of [RETRY_DELAY_MS], and
    after them one wait of 100 ms when it fulfils the request with a
    tracer that has no [flush]. *)
Theorem generateWithAI_flushes_on_success_only :
  forall (JSON_parse : string -> Result json) (apiKey : string)
         (tracer_has_flush : bool) (request : CallableRequest)
         (i : Invocation),
    exists evs waits,
      trace (pipeline (snd (generateWithAI JSON_parse apiKey
                                           tracer_has_flush request i)))
      = trace (pipeline i) ++ evs
      /\ flushes (snd (generateWithAI JSON_parse apiKey tracer_has_flush
                                      request i))
         = (flushes i
            + flush_calls tracer_has_flush
                (fst (generateWithAI JSON_parse apiKey tracer_has_flush
                                     request i)))%nat
      /\ filter is_sleep evs
         = repeat (EvSleep CONFIG.RETRY_DELAY_MS) waits
           ++ flush_wait tracer_has_flush
                (fst (generateWithAI JSON_parse apiKey tracer_has_flush
                                     request i))
      /\ (waits <= 4)%nat.
Proof.
  intros JSON_parse apiKey tracer_has_flush request [[b tr h] n].
  destruct (well_formed_cases request)
    as [(uid & u & p & Hauth & Hu & Hp & Hwf) | [Hwf _]].
  - destruct (generateWithAI_well_formed JSON_parse apiKey tracer_has_flush
                request uid u p b Hauth Hu Hp)
      as (analyses & c & _ & Hrun).
    destruct (Hrun tr h n) as (evs & waits & -> & Hsleeps & Hwaits).
    exists evs, waits. cbn [fst snd pipeline trace flushes].
    repeat split; assumption || reflexivity.
  - rewrite (generateWithAI_ill_formed JSON_parse apiKey tracer_has_flush
               request _ Hwf).
    exists [EvConsole LOG "[generateWithAI] Request received" None], 0%nat.
    cbn [fst snd pipeline trace flushes flush_calls flush_wait].
    split; [reflexivity |]. split; [lia |].
    split; [reflexivity | lia].
Qed.

(** ** The log entry *)

Lemma lookup_set_property key k v obj :
  lookup key (set_property k v obj)
  = if String.eqb k key then Some v else lookup key obj.
Proof.
  induction obj as [| [k0 old] rest IH]; [reflexivity |].
  cbn [set_property].
  destruct (String.eqb k0 k) eqn:Hk0; cbn [lookup].
  - apply String.eqb_eq in Hk0. subst k0.
    destruct (String.eqb k key); reflexivity.
  - rewrite IH.
    destruct (String.eqb k0 key) eqn:H0, (String.eqb k key) eqn:H1;
      try reflexivity.
    apply String.eqb_eq in H0, H1. subst.
    rewrite String.eqb_refl in Hk0. discriminate.
Qed.

Lemma lookup_spread key more :
  forall obj,
    lookup key (spread obj more)
    = match last_binding key more with
      | Some v => Some v
      | None => lookup key obj
      end.
Proof.
  unfold spread.
  induction more as [| [k v] more IH]; intros obj; [reflexivity |].
  cbn [fold_left fst snd last_binding]. rewrite IH.
  destruct (last_binding key more); [reflexivity |].
  rewrite lookup_set_property.
  destruct (String.eqb k key); reflexivity.
Qed.

(** X17: with an API key, [sendLog] makes one request, whose entry gives to
    every key of [additionalData] the last value that [additionalData]
    binds to it; so the [status] of the entry is the level only if
    [additionalData] has no [status], and the [message] of the entry is
    the message only if [additionalData] has no [message]. *)
Theorem sendLog_additionalData_overrides :
  forall {S : Type} (message : string) (level : LogLevel)
         (additionalData : list (string * json)) (w : World S),
    key_present (host w) = true ->
    exists r entry,
      trace (snd (sendLog message level additionalData w))
      = trace w ++ [EvHttp r]
      /\ body r = LogPayload entry
      /\ (forall key v,
             last_binding key additionalData = Some v ->
             lookup key entry = Some v)
      /\ lookup "status" entry
         = Some (match last_binding "status" additionalData with
                 | Some v => v
                 | None => JString (level_name level)
                 end)
      /\ lookup "message" entry
         = Some (match last_binding "message" additionalData with
                 | Some v => v
                 | None => JString message
                 end).
Proof.
  intros S message level additionalData [s tr h]. cbn [host]. intros Hp.
  destruct (key_cases h) as [[_ (c & rest & Hk)] | [Hn _]]; [| congruence].
  rewrite (sendLog_with_key message level additionalData s tr h _ Hk Hp).
  eexists _, _. cbn [snd trace]. split; [reflexivity |].
  unfold log_request. cbn [body]. split; [reflexivity |].
  split; [| split].
  - intros key v Hlast. rewrite lookup_spread, Hlast. reflexivity.
  - rewrite lookup_spread.
    destruct (last_binding "status" additionalData); reflexivity.
  - rewrite lookup_spread.
    destruct (last_binding "message" additionalData); reflexivity.
Qed.

Lemma sendLog_additionalData_overrides_witness :
  exists r entry,
    trace (snd (sendLog "done" level_info [("status", JString "success")]
                        (sample_world mute_backend (Some "dd-key"))))
    = trace (sample_world mute_backend (Some "dd-key")) ++ [EvHttp r]
    /\ body r = LogPayload entry
    /\ (forall key v,
           last_binding key [("status", JString "success")] = Some v ->
           lookup key entry = Some v)
    /\ lookup "status" entry
       = Some (match last_binding "status" [("status", JString "success")]
               with
               | Some v => v
               | None => JString (level_name level_info)
               end)
    /\ lookup "message" entry
       = Some (match last_binding "message" [("status", JString "success")]
               with
               | Some v => v
               | None => JString "done"
               end).
Proof.
  apply (sendLog_additionalData_overrides
           "done" level_info [("status", JString "success")]
           (sample_world mute_backend (Some "dd-key"))).
  reflexivity.
Defined.
